(** * Time Series Forest: interval sampling, feature extraction, fit and
      temporal importance curves

    A shallow embedding of
    [sktime/series_as_features/base/estimators/interval_based/_tsf.py].

    Python integers are [Z]; numpy arrays are lists (a 2-D array is a list of
    rows); an attribute of [self] is a field of the record [Forest]; a method
    is a function from the object's state to an outcome and the state the
    object is left in, so that what an exception leaves behind is visible.

    Two idealisations.  The [int64] cells of the interval array are unbounded
    integers: every value stored there lies between [0] and the series
    length.  [int(math.sqrt(n))] is the integer square root [Z.sqrt n]; the
    two agree for every length below [2^52]. *)

From Stdlib Require Import ZArith Lia Bool Sorted.
From stdpp Require Import base tactics option list.

Local Open Scope Z_scope.

(** ** Exceptions and outcomes *)

Inductive exn : Type :=
  | ValueError
  | IndexError
  | TypeError
  | NotFittedError
  | LearnerError.

Inductive result (A : Type) : Type :=
  | Ok (a : A)
  | Raise (e : exn).
Arguments Ok {A} a.
Arguments Raise {A} e.

Definition rbind {A B} (r : result A) (k : A → result B) : result B :=
  match r with
  | Ok a => k a
  | Raise e => Raise e
  end.

Declare Scope result_scope.
Delimit Scope result_scope with result.
Notation "'let?' x := r 'in' k" := (rbind r (fun x => k))
  (at level 10, x name, r at level 100, k at level 200) : result_scope.
Notation "'let?' ( x , y ) := r 'in' k" := (rbind r (fun '(x, y) => k))
  (at level 10, x name, y name, r at level 100, k at level 200)
  : result_scope.
Local Open Scope result_scope.

(** [for x in xs: s = body(x, s)], stopping at the first exception. *)
Fixpoint for_each {A S} (xs : list A) (body : A → S → result S) (s : S)
  : result S :=
  match xs with
  | [] => Ok s
  | x :: xs' => let? s' := body x s in for_each xs' body s'
  end.

(** [range(n)]: empty when [n <= 0]. *)
Definition range (n : Z) : list nat := seq 0 (Z.to_nat n).

(** ** The random generator

    A [numpy.random.RandomState] is the sequence of its raw outputs and the
    position reached in it.  [rng.randint(high)] raises [ValueError] when
    [high <= 0] and otherwise returns a value of [[0, high)] and advances the
    generator.  Every sequence of in-range outcomes is the behaviour of some
    generator of this model, see [randint_any]. *)

Record RandomState : Type := mkRandomState {
  raw : nat → Z;
  pos : nat;
}.

Definition advance (g : RandomState) : RandomState :=
  mkRandomState (raw g) (S (pos g)).

Definition randint (high : Z) (g : RandomState) : result (Z * RandomState) :=
  if high <=? 0 then Raise ValueError
  else Ok (raw g (pos g) mod high, advance g).

(** A generator that replays a given list of raw outputs, then zeros. *)
Definition replay (outs : list Z) : RandomState :=
  mkRandomState (fun i => nth i outs 0) 0.

(** ** Interval sampler: [_get_intervals] *)

(** [np.zeros((n, 2), dtype=int)]; a negative dimension is refused. *)
Definition np_zeros_pairs (n : Z) : result (list (Z * Z)) :=
  if n <? 0 then Raise ValueError
  else Ok (replicate (Z.to_nat n) (0, 0)).

(** [intervals[j][0]], [intervals[j][0] = v] and [intervals[j][1] = v] for a
    row [j] of the array. *)
Definition get_start (j : nat) (intervals : list (Z * Z)) : Z :=
  (intervals !!! j).1.
Definition set_start (j : nat) (v : Z) (intervals : list (Z * Z)) :=
  alter (fun p => (v, p.2)) j intervals.
Definition set_end (j : nat) (v : Z) (intervals : list (Z * Z)) :=
  alter (fun p => (p.1, v)) j intervals.

(** [if length < min_interval: length = min_interval]. *)
Definition clamp_length (min_interval length : Z) : Z :=
  if length <? min_interval then min_interval else length.

(** The body of the loop, for one [j]. *)
Definition interval_step (min_interval series_length : Z) (j : nat)
    (st : list (Z * Z) * RandomState) : result (list (Z * Z) * RandomState) :=
  let '(intervals, rng) := st in
  let? (start, rng) := randint (series_length - min_interval) rng in
  let intervals := set_start j start intervals in
  let? (length, rng) :=
    randint (series_length - get_start j intervals - 1) rng in
  let length := clamp_length min_interval length in
  let intervals := set_end j (get_start j intervals + length) intervals in
  Ok (intervals, rng).

Definition _get_intervals (n_intervals min_interval series_length : Z)
    (rng : RandomState) : result (list (Z * Z) * RandomState) :=
  let? intervals := np_zeros_pairs n_intervals in
  for_each (range n_intervals)
    (interval_step min_interval series_length) (intervals, rng).

(** ** Methods

    A method runs on an object and leaves it in some state, whether it
    returns or raises. *)
Definition method (S A : Type) : Type := S → result A * S.

Definition ret {S A} (a : A) : method S A := fun self => (Ok a, self).

Definition bind {S A B} (m : method S A) (k : A → method S B) : method S B :=
  fun self =>
    match m self with
    | (Ok a, self') => k a self'
    | (Raise e, self') => (Raise e, self')
    end.

(** a computation that does not touch [self] *)
Definition raising {S A} (r : result A) : method S A := fun self => (r, self).
(** [self.<attribute>] *)
Definition attr {S A} (get : S → A) : method S A :=
  fun self => (Ok (get self), self).
(** [self.<attribute> = v] *)
Definition assign {S A} (set : A → S → S) (v : A) : method S unit :=
  fun self => (Ok tt, set v self).

Notation "'let!' x := m 'in' k" := (bind m (fun x => k))
  (at level 10, x name, m at level 100, k at level 200).
Notation "'let!' ( x , y ) := m 'in' k" := (bind m (fun '(x, y) => k))
  (at level 10, x name, y name, m at level 100, k at level 200).
Notation "m ';;!' k" := (bind m (fun _ => k))
  (at level 100, k at level 200, right associativity).

Fixpoint for_each_m {S A} (xs : list A) (body : A → method S unit)
  : method S unit :=
  match xs with
  | [] => ret tt
  | x :: xs' => body x ;;! for_each_m xs' body
  end.

(** ** Collaborators outside this module

    The numeric kernels ([np.mean], [np.std], [sktime.utils._slope],
    floating-point addition, the cast to [float32]), the base tree learner and
    the job runner are not part of this module.  They are taken as
    interfaces; the module's code is written against them. *)

Class Numeric : Type := {
  num : Type;
  zero : num;
  one : num;
  add : num → num → num;
  np_mean : list num → num;
  np_std : list num → num;
  _slope : list num → num;
  (** storing a value into a [float32] array *)
  float32 : num → num;
  (** whatever [np.empty] finds in memory *)
  uninit : num;
}.

#[global] Instance num_inhabited {N : Numeric} : Inhabited num :=
  populate zero.

(** The one arithmetic fact the curves rely on: adding [0] changes nothing
    (for floating-point numbers, up to the sign of a zero). *)
Class NumericLaws (N : Numeric) : Prop := {
  add_zero_r : ∀ x : num, add x zero = x;
}.

Class Learner (N : Numeric) : Type := {
  (** an unfitted tree classifier *)
  learner : Type;
  (** a fitted one *)
  tree : Type;
  feature_importances_ : tree → list num;
  (** [_clone_estimator(estimator, rng)]: a copy seeded from [rng] *)
  _clone_estimator : learner → RandomState → learner * RandomState;
  (** [estimator.fit(features, y)] *)
  learner_fit : learner → list (list num) → list Z → result tree;
}.

Class Runtime (T : Type) : Type := {
  (** the order in which the workers happen to run *)
  schedule : Type;
  check_n_jobs : Z → Z;
  (** [Parallel(n_jobs=n)(tasks)]; a task is given by its outcome *)
  Parallel : Z → schedule → list (result T) → result (list T);
  (** raw outputs of [np.random.RandomState(seed)] *)
  seeded : Z → nat → Z;
}.

(** Results come back in task order, whatever the schedule, and only when no
    task has raised. *)
Class RuntimeLaws {T} (R : Runtime T) : Prop := {
  Parallel_ordered : ∀ n s (tasks : list (result T)) rs,
    Parallel n s tasks = Ok rs → tasks = Ok <$> rs;
}.

(** [np.unique(y)]: the distinct values of [y], ascending. *)
Fixpoint insert_unique (x : Z) (l : list Z) : list Z :=
  match l with
  | [] => [x]
  | h :: t =>
      if x <? h then x :: l
      else if x =? h then l
      else h :: insert_unique x t
  end.

Definition np_unique (y : list Z) : list Z := foldr insert_unique [] y.

(** [a[i]] on a numpy array, for [i >= 0]. *)
Definition getitem {A} (a : list A) (i : nat) : result A :=
  match a !! i with
  | Some x => Ok x
  | None => Raise IndexError
  end.

(** [a[i] = v] for a row [i >= 0] of a 2-D array. *)
Definition setitem {A} (i : nat) (v : A) (a : list A) : result (list A) :=
  if decide (i < length a)%nat then Ok (<[i := v]> a) else Raise IndexError.

(** A bound of a Python slice over a sequence of length [n]. *)
Definition slice_bound (n : nat) (i : Z) : nat :=
  if i <? 0 then Z.to_nat (Z.max (i + Z.of_nat n) 0)
  else Z.to_nat (Z.min i (Z.of_nat n)).

(** [l[a:b]]. *)
Definition py_slice {A} (a b : Z) (l : list A) : list A :=
  let lo := slice_bound (length l) a in
  let hi := slice_bound (length l) b in
  take (hi - lo) (drop lo l).

(** [range(a, b)]. *)
Definition range2 (a b : Z) : list Z :=
  (fun k => a + Z.of_nat k) <$> seq 0 (Z.to_nat (b - a)).

(** [np.put(mask, ind, 1)] with the default [mode='raise']: an index outside
    [[-n, n)] raises, a negative one counts from the end. *)
Definition np_put (mask : list bool) (ind : list Z) : result (list bool) :=
  for_each ind
    (fun i m =>
       let n := Z.of_nat (length m) in
       if (i <? - n) || (n <=? i) then Raise IndexError
       else Ok (<[Z.to_nat (if i <? 0 then i + n else i) := true]> m))
    mask.

(** A training panel after [X.squeeze(1)]: [X.shape] is
    [(length panel_rows, panel_length)]. *)
Record Panel {N : Numeric} : Type := mkPanel {
  panel_rows : list (list num);
  panel_length : nat;
}.

(** What the [random_state] attribute holds: [None], an integer seed, or a
    generator object.  A generator object lives outside the forest: the
    attribute is a reference to it, and the state in which a call finds the
    object is an argument of that call. *)
Inductive random_state_t : Type :=
  | RSNone
  | RSInt (seed : Z)
  | RSGen.

Section TSF.
Context {N : Numeric} {Lr : Learner N} {Rt : Runtime tree}.

(** *** [_transform] *)

(** [np.empty(shape=(r, c))]. *)
Definition np_empty (r c : nat) : list (list num) :=
  replicate r (replicate c uninit).

(** [a.T] for an array of [c] columns. *)
Definition transpose (c : nat) (a : list (list num)) : list (list num) :=
  (fun i => (fun row => row !!! i) <$> a) <$> seq 0 c.

Definition transform_step (X : Panel) (intervals : list (Z * Z)) (j : nat)
    (transformed_x : list (list num)) : result (list (list num)) :=
  let X_slice :=
    py_slice (intervals !!! j).1 (intervals !!! j).2 <$> panel_rows X in
  let means := np_mean <$> X_slice in
  let std_dev := np_std <$> X_slice in
  let slope := _slope <$> X_slice in
  let? transformed_x :=
    setitem (3 * j)%nat (float32 <$> means) transformed_x in
  let? transformed_x :=
    setitem (3 * j + 1)%nat (float32 <$> std_dev) transformed_x in
  setitem (3 * j + 2)%nat (float32 <$> slope) transformed_x.

Definition _transform (X : Panel) (intervals : list (Z * Z))
  : result (list (list num)) :=
  let n_instances := length (panel_rows X) in
  let n_intervals := length intervals in
  let transformed_x := np_empty (3 * n_intervals) n_instances in
  let? transformed_x :=
    for_each (seq 0 n_intervals) (transform_step X intervals) transformed_x in
  Ok (transpose n_instances transformed_x).

(** *** [_fit_estimator] *)

Definition _fit_estimator (estimator : learner) (X : Panel) (y : list Z)
    (intervals : list (Z * Z)) : result tree :=
  let? transformed_x := _transform X intervals in
  learner_fit estimator transformed_x y.

(** *** The forest object *)

Record Forest : Type := mkForest {
  _estimator : learner;
  random_state : random_state_t;
  n_estimators : Z;
  min_interval : Z;
  n_jobs : Z;
  n_classes : Z;
  series_length : Z;
  n_intervals : Z;
  estimators_ : list tree;
  intervals_ : list (list (Z * Z));
  classes_ : list Z;
  _is_fitted : bool;
  mean_curve_ : option (list num);
  stdev_curve_ : option (list num);
  slope_curve_ : option (list num);
  n_intervals_wts_curve_ : option (list num);
}.

(** [self.<attribute> = v], one definition per attribute the module assigns
    outside [__init__]. *)
Definition set_min_interval (v : Z) (self : Forest) : Forest :=
  mkForest (_estimator self) (random_state self) (n_estimators self) v
    (n_jobs self) (n_classes self) (series_length self) (n_intervals self)
    (estimators_ self) (intervals_ self) (classes_ self) (_is_fitted self)
    (mean_curve_ self) (stdev_curve_ self) (slope_curve_ self)
    (n_intervals_wts_curve_ self).
Definition set_n_classes (v : Z) (self : Forest) : Forest :=
  mkForest (_estimator self) (random_state self) (n_estimators self)
    (min_interval self) (n_jobs self) v (series_length self)
    (n_intervals self) (estimators_ self) (intervals_ self) (classes_ self)
    (_is_fitted self) (mean_curve_ self) (stdev_curve_ self)
    (slope_curve_ self) (n_intervals_wts_curve_ self).
Definition set_series_length (v : Z) (self : Forest) : Forest :=
  mkForest (_estimator self) (random_state self) (n_estimators self)
    (min_interval self) (n_jobs self) (n_classes self) v (n_intervals self)
    (estimators_ self) (intervals_ self) (classes_ self) (_is_fitted self)
    (mean_curve_ self) (stdev_curve_ self) (slope_curve_ self)
    (n_intervals_wts_curve_ self).
Definition set_n_intervals (v : Z) (self : Forest) : Forest :=
  mkForest (_estimator self) (random_state self) (n_estimators self)
    (min_interval self) (n_jobs self) (n_classes self) (series_length self) v
    (estimators_ self) (intervals_ self) (classes_ self) (_is_fitted self)
    (mean_curve_ self) (stdev_curve_ self) (slope_curve_ self)
    (n_intervals_wts_curve_ self).
Definition set_estimators_ (v : list tree) (self : Forest) : Forest :=
  mkForest (_estimator self) (random_state self) (n_estimators self)
    (min_interval self) (n_jobs self) (n_classes self) (series_length self)
    (n_intervals self) v (intervals_ self) (classes_ self) (_is_fitted self)
    (mean_curve_ self) (stdev_curve_ self) (slope_curve_ self)
    (n_intervals_wts_curve_ self).
Definition set_intervals_ (v : list (list (Z * Z))) (self : Forest) : Forest :=
  mkForest (_estimator self) (random_state self) (n_estimators self)
    (min_interval self) (n_jobs self) (n_classes self) (series_length self)
    (n_intervals self) (estimators_ self) v (classes_ self) (_is_fitted self)
    (mean_curve_ self) (stdev_curve_ self) (slope_curve_ self)
    (n_intervals_wts_curve_ self).
Definition set_classes_ (v : list Z) (self : Forest) : Forest :=
  mkForest (_estimator self) (random_state self) (n_estimators self)
    (min_interval self) (n_jobs self) (n_classes self) (series_length self)
    (n_intervals self) (estimators_ self) (intervals_ self) v
    (_is_fitted self) (mean_curve_ self) (stdev_curve_ self)
    (slope_curve_ self) (n_intervals_wts_curve_ self).
Definition set_is_fitted (v : bool) (self : Forest) : Forest :=
  mkForest (_estimator self) (random_state self) (n_estimators self)
    (min_interval self) (n_jobs self) (n_classes self) (series_length self)
    (n_intervals self) (estimators_ self) (intervals_ self) (classes_ self) v
    (mean_curve_ self) (stdev_curve_ self) (slope_curve_ self)
    (n_intervals_wts_curve_ self).
Definition set_mean_curve_ (v : option (list num)) (self : Forest) : Forest :=
  mkForest (_estimator self) (random_state self) (n_estimators self)
    (min_interval self) (n_jobs self) (n_classes self) (series_length self)
    (n_intervals self) (estimators_ self) (intervals_ self) (classes_ self)
    (_is_fitted self) v (stdev_curve_ self) (slope_curve_ self)
    (n_intervals_wts_curve_ self).
Definition set_stdev_curve_ (v : option (list num)) (self : Forest) : Forest :=
  mkForest (_estimator self) (random_state self) (n_estimators self)
    (min_interval self) (n_jobs self) (n_classes self) (series_length self)
    (n_intervals self) (estimators_ self) (intervals_ self) (classes_ self)
    (_is_fitted self) (mean_curve_ self) v (slope_curve_ self)
    (n_intervals_wts_curve_ self).
Definition set_slope_curve_ (v : option (list num)) (self : Forest) : Forest :=
  mkForest (_estimator self) (random_state self) (n_estimators self)
    (min_interval self) (n_jobs self) (n_classes self) (series_length self)
    (n_intervals self) (estimators_ self) (intervals_ self) (classes_ self)
    (_is_fitted self) (mean_curve_ self) (stdev_curve_ self) v
    (n_intervals_wts_curve_ self).
Definition set_n_intervals_wts_curve_ (v : option (list num)) (self : Forest) : Forest :=
  mkForest (_estimator self) (random_state self) (n_estimators self)
    (min_interval self) (n_jobs self) (n_classes self) (series_length self)
    (n_intervals self) (estimators_ self) (intervals_ self) (classes_ self)
    (_is_fitted self) (mean_curve_ self) (stdev_curve_ self)
    (slope_curve_ self) v.

(** [__init__]. *)
Definition __init__ (base : learner) (min_interval n_estimators n_jobs : Z)
    (random_state : random_state_t) : Forest :=
  mkForest base random_state n_estimators min_interval n_jobs
    0 0 0 [] [] [] false None None None None.

(** *** [_fit] *)

(** [check_random_state(seed)]: numpy's global generator for [None]; the
    generator object itself when [seed] is one; for an integer, a fresh
    [np.random.RandomState(seed)], which raises [ValueError] unless
    [0 <= seed <= 2**32 - 1].  [global] is the state of the generator that
    exists outside the call: numpy's global one for [None], the caller's
    object for a generator. *)
Definition check_random_state (global : RandomState) (seed : random_state_t)
  : result RandomState :=
  match seed with
  | RSNone => Ok global (* [np.random.mtrand._rand] *)
  | RSInt s =>
      if (0 <=? s) && (s <=? 2 ^ 32 - 1) then Ok (mkRandomState (seeded s) 0)
      else Raise ValueError
  | RSGen => Ok global (* [seed] itself, found in the state [global] *)
  end.

(** [[_get_intervals(k, m, l, rng) for _ in range(n)]]. *)
Definition sample_members (n k m l : Z) (rng : RandomState)
  : result (list (list (Z * Z)) * RandomState) :=
  for_each (range n)
    (fun _ '(acc, rng) =>
       let? (intervals, rng) := _get_intervals k m l rng in
       Ok (acc ++ [intervals], rng))
    ([], rng).

(** The tasks handed to [Parallel], built in member order:
    [delayed(_fit_estimator)(_clone_estimator(self._estimator, rng), X, y,
    self.intervals_[i]) for i in range(n)]. *)
Definition member_tasks (base : learner) (X : Panel) (y : list Z)
    (intervals_ : list (list (Z * Z))) (n : Z) (rng : RandomState)
  : list (result tree) * RandomState :=
  foldl
    (fun '(tasks, rng) i =>
       let '(estimator, rng) := _clone_estimator base rng in
       (tasks ++ [let? intervals := getitem intervals_ i in
                  _fit_estimator estimator X y intervals], rng))
    ([], rng) (range n).

(** [_fit] on the squeezed panel; the model returns nothing where the source
    returns [self].  [global] is the state in which the call finds the
    generator that exists outside it (numpy's global generator when
    [random_state] is [None], the caller's object when it is a generator);
    the call draws from it in place, and the state in which it leaves that
    generator is not an attribute of the forest: a later call finds the
    generator as this one left it, and that state is the [global] of the
    later call.  [sched] is the order in which the workers happen to run. *)
Definition _fit (global : RandomState) (sched : schedule) (X : Panel)
    (y : list Z) : method Forest unit :=
  assign set_series_length (Z.of_nat (panel_length X)) ;;!
  let! n_jobs := attr (fun self => check_n_jobs (n_jobs self)) in
  let! seed := attr random_state in
  let! rng := raising (check_random_state global seed) in
  assign set_n_classes (Z.of_nat (length (np_unique y))) ;;!
  assign set_classes_ (np_unique y) ;;!
  let! l := attr series_length in
  assign set_n_intervals (Z.sqrt l) ;;!
  let! k := attr n_intervals in
  (if k =? 0 then assign set_n_intervals 1 else ret tt) ;;!
  let! l := attr series_length in
  let! m := attr min_interval in
  (if l <? m then assign set_min_interval l else ret tt) ;;!
  let! k := attr n_intervals in
  let! m := attr min_interval in
  let! n := attr n_estimators in
  let! (intervals, rng) := raising (sample_members n k m l rng) in
  assign set_intervals_ intervals ;;!
  let! base := attr _estimator in
  let! intervals := attr intervals_ in
  let! fitted :=
    raising (Parallel n_jobs sched
               (member_tasks base X y intervals n rng).1) in
  assign set_estimators_ fitted ;;!
  assign set_is_fitted true.

(** *** [_get_fitted_params] *)

Record FittedParams : Type := mkFittedParams {
  fp_classes : list Z;
  fp_intervals : list (list (Z * Z));
  fp_estimators : list tree;
}.

Definition _get_fitted_params : method Forest FittedParams :=
  let! classes := attr classes_ in
  let! intervals := attr intervals_ in
  let! estimators := attr estimators_ in
  ret (mkFittedParams classes intervals estimators).

(** *** [temporal_curves_] *)

(** [np.zeros(n)]. *)
Definition np_zeros {A} (z : A) (n : Z) : result (list A) :=
  if n <? 0 then Raise ValueError else Ok (replicate (Z.to_nat n) z).

(** [np.where(mask, v, 0)]. *)
Definition np_where (mask : list bool) (v : num) : list num :=
  (fun b : bool => if b then v else zero) <$> mask.

(** [self.<curve> += a]. *)
Definition iadd (get : Forest → option (list num))
    (set : option (list num) → Forest → Forest) (a : list num)
  : method Forest unit :=
  let! curve := attr get in
  match curve with
  | Some c => assign set (Some (zip_with add c a))
  | None => raising (Raise TypeError)
  end.

(** [enumerate(l)]. *)
Definition enumerate {A} (l : list A) : list (nat * A) := imap pair l.

(** The body of the inner loop. *)
Definition curve_step (estimator : tree) (i_int : nat) (interval : Z * Z)
  : method Forest unit :=
  let! l := attr series_length in
  let! interval_mask := raising (np_zeros false l) in
  let! interval_mask :=
    raising (np_put interval_mask (range2 interval.1 interval.2)) in
  iadd n_intervals_wts_curve_ set_n_intervals_wts_curve_
    (np_where interval_mask one) ;;!
  let! imp := raising (getitem (feature_importances_ estimator) (3 * i_int)) in
  iadd mean_curve_ set_mean_curve_ (np_where interval_mask imp) ;;!
  let! imp :=
    raising (getitem (feature_importances_ estimator) (3 * i_int + 1)) in
  iadd stdev_curve_ set_stdev_curve_ (np_where interval_mask imp) ;;!
  let! imp :=
    raising (getitem (feature_importances_ estimator) (3 * i_int + 2)) in
  iadd slope_curve_ set_slope_curve_ (np_where interval_mask imp).

Definition temporal_curves_ : method Forest unit :=
  let! l := attr series_length in
  let! z := raising (np_zeros zero l) in
  assign set_mean_curve_ (Some z) ;;!
  let! l := attr series_length in
  let! z := raising (np_zeros zero l) in
  assign set_stdev_curve_ (Some z) ;;!
  let! l := attr series_length in
  let! z := raising (np_zeros zero l) in
  assign set_slope_curve_ (Some z) ;;!
  let! l := attr series_length in
  let! z := raising (np_zeros zero l) in
  assign set_n_intervals_wts_curve_ (Some z) ;;!
  let! estimators := attr estimators_ in
  let! intervals_ := attr intervals_ in
  for_each_m (zip estimators intervals_)
    (fun '(estimator, intervals) =>
       for_each_m (enumerate intervals)
         (fun '(i_int, interval) => curve_step estimator i_int interval)).

End TSF.

(** ** A small instance on which the model runs

    Integers stand for the floating-point numbers and simple integer kernels
    for the statistics; the learner scores feature column [c] with [c + 1];
    the job runner runs the tasks one after the other and reports, when
    tasks raise, the one that the schedule runs first. *)

Definition demo_numeric : Numeric := {|
  num := Z;
  zero := 0;
  one := 1;
  add := Z.add;
  np_mean := fun l => foldr Z.add 0 l / Z.of_nat (length l);
  np_std := fun l => foldr Z.max 0 l - foldr Z.min 0 l;
  _slope := fun l => List.last l 0 - hd 0 l;
  float32 := fun x => x;
  uninit := -1;
|}.

Definition demo_learner : Learner demo_numeric := {|
  learner := Z;
  tree := list Z;
  feature_importances_ := fun t : list Z => (t : list (@num demo_numeric));
  _clone_estimator := fun base rng =>
    (raw rng (pos rng) mod 2147483647, advance rng);
  learner_fit := fun _ (features : list (list (@num demo_numeric))) _ =>
    match features with
    | [] => Raise LearnerError
    | row :: _ => Ok ((fun c => Z.of_nat (S c)) <$> seq 0 (length row) : list Z)
    end;
|}.

(** The first exception met when the outcomes are visited in the given
    order. *)
Fixpoint first_raise {T} (tasks : list (result T)) (order : list nat)
  : option exn :=
  match order with
  | [] => None
  | i :: order' =>
      match tasks !! i with
      | Some (Raise e) => Some e
      | _ => first_raise tasks order'
      end
  end.

(** The results of the tasks, given that none has raised. *)
Definition collect {T} (tasks : list (result T)) : list T :=
  omap (fun r => match r with Ok t => Some t | Raise _ => None end) tasks.

Definition demo_runtime (T : Type) : Runtime T := {|
  schedule := list nat;
  check_n_jobs := fun n => if n <? 0 then 1 else n;
  Parallel := fun n sched tasks =>
    if n =? 0 then Raise ValueError
    else match first_raise tasks (sched ++ seq 0 (length tasks)) with
         | Some e => Raise e
         | None => Ok (collect tasks)
         end;
  seeded := fun seed i => (seed + Z.of_nat i) * 2654435761 mod 4294967296;
|}.

(** Four series of length 8, labels [0, 1, 0, 1]. *)
Definition demo_panel : @Panel demo_numeric :=
  mkPanel demo_numeric
    [[1; 2; 3; 4; 5; 6; 7; 8]; [8; 7; 6; 5; 4; 3; 2; 1];
     [1; 1; 2; 2; 3; 3; 4; 4]; [5; 5; 5; 5; 1; 1; 1; 1]] 8.
Definition demo_labels : list Z := [0; 1; 0; 1].

(** A forest of three members, seeded, and a call of [_fit] on it. *)
Definition demo_forest (jobs : Z) : @Forest demo_numeric demo_learner :=
  @__init__ demo_numeric demo_learner 0 3 3 jobs (RSInt 42).
Abbreviation demo_fit :=
  (@_fit demo_numeric demo_learner (demo_runtime _) (replay []) []
     demo_panel demo_labels (demo_forest 1)).

(** Two series of length 2: shorter than the default minimum interval. *)
Definition short_panel : @Panel demo_numeric :=
  mkPanel demo_numeric [[1; 2]; [2; 1]] 2.
Abbreviation short_fit :=
  (@_fit demo_numeric demo_learner (demo_runtime _) (replay []) []
     short_panel demo_labels (demo_forest 1)).

(** The first panel with other values at the last time point. *)
Definition demo_panel_other_end : @Panel demo_numeric :=
  mkPanel demo_numeric
    [[1; 2; 3; 4; 5; 6; 7; 0]; [8; 7; 6; 5; 4; 3; 2; 9];
     [1; 1; 2; 2; 3; 3; 4; 5]; [5; 5; 5; 5; 1; 1; 1; 2]] 8.

(** The seeded forest with another number of members. *)
Definition sized_forest (members : Z) : @Forest demo_numeric demo_learner :=
  @__init__ demo_numeric demo_learner 0 3 members 1 (RSInt 42).

(** A forest with a seed that [np.random.RandomState] refuses, fitted on the
    short panel. *)
Definition refused_forest : @Forest demo_numeric demo_learner :=
  @__init__ demo_numeric demo_learner 0 3 3 1 (RSInt (-1)).
Abbreviation refused_fit :=
  (@_fit demo_numeric demo_learner (demo_runtime _) (replay []) []
     short_panel demo_labels refused_forest).

(** The fitted forest fitted again, on the short panel. *)
Abbreviation stale_fit :=
  (@_fit demo_numeric demo_learner (demo_runtime _) (replay []) []
     short_panel demo_labels demo_fit.2).

(** ** Vocabulary of the statements *)

(** A row written by the sampler's loop: the two draws and the clamp. *)
Definition sampled (m l : Z) (iv : Z * Z) : Prop :=
  ∃ s c, 0 ≤ s < l - m ∧ 0 ≤ c < l - s - 1 ∧ iv = (s, s + clamp_length m c).

(** The elements of [row] at the positions [t] with [a <= t < b]. *)
Definition sub_range {A} (a b : Z) (row : list A) : list A :=
  take (Z.to_nat (b - a)) (drop (Z.to_nat a) row).

Section Vocabulary.
Context {N : Numeric} {Lr : Learner N} {Rt : Runtime tree}.

(** The three rows that iteration [j] writes. *)
Definition feature_rows (X : Panel) (intervals : list (Z * Z)) (j : nat)
  : list (list num) :=
  let X_slice :=
    py_slice (intervals !!! j).1 (intervals !!! j).2 <$> panel_rows X in
  [float32 <$> (np_mean <$> X_slice);
   float32 <$> (np_std <$> X_slice);
   float32 <$> (_slope <$> X_slice)].

(** The object as [_fit] has it when it starts to draw intervals. *)
Definition prepared (X : Panel) (y : list Z) (self : Forest) : Forest :=
  let l := Z.of_nat (panel_length X) in
  let self := set_series_length l self in
  let self := set_n_classes (Z.of_nat (length (np_unique y))) self in
  let self := set_classes_ (np_unique y) self in
  let self :=
    set_n_intervals (if Z.sqrt l =? 0 then 1 else Z.sqrt l) self in
  if l <? min_interval self then set_min_interval l self else self.

(** The objects on which no call of [_fit] has returned yet. *)
Inductive unfitted : Forest → Prop :=
  | unfitted_init base m n j seed :
      unfitted (__init__ base m n j seed)
  | unfitted_fit_raised global sched X y self e self' :
      unfitted self →
      _fit global sched X y self = (Raise e, self') →
      unfitted self'
  | unfitted_params self r self' :
      unfitted self →
      _get_fitted_params self = (r, self') →
      unfitted self'
  | unfitted_curves self r self' :
      unfitted self →
      temporal_curves_ self = (r, self') →
      unfitted self'.

(** The four curves set to the given values. *)
Definition with_curves (mean stdev slope wts : list num) (self : Forest)
  : Forest :=
  set_n_intervals_wts_curve_ (Some wts)
    (set_slope_curve_ (Some slope)
       (set_stdev_curve_ (Some stdev)
          (set_mean_curve_ (Some mean) self))).

(** The attributes other than the four curves, and the four curves. *)
Definition config_of (self : Forest) :=
  (_estimator self, random_state self, n_estimators self, min_interval self,
   n_jobs self, n_classes self, series_length self, n_intervals self,
   estimators_ self, intervals_ self, classes_ self, _is_fitted self).

Definition curves_of (self : Forest) :=
  (mean_curve_ self, stdev_curve_ self, slope_curve_ self,
   n_intervals_wts_curve_ self).

(** The two loops of [temporal_curves_]. *)
Definition curves_loop (members : list (tree * list (Z * Z)))
  : method Forest unit :=
  for_each_m members
    (fun '(estimator, intervals) =>
       for_each_m (enumerate intervals)
         (fun '(i_int, interval) => curve_step estimator i_int interval)).

(** Interval [iv] covers the time index [t]. *)
Definition covers (iv : Z * Z) (t : nat) : bool :=
  bool_decide (iv.1 ≤ Z.of_nat t < iv.2).

(** The scores that the members' intervals covering [t] contribute, in the
    order of the loops: members first, then intervals. *)
Definition contributions (score : tree → nat → num)
    (members : list (tree * list (Z * Z))) (t : nat) : list num :=
  flat_map
    (fun '(estimator, intervals) =>
       omap (fun '(j, iv) =>
               if covers iv t then Some (score estimator j) else None)
            (enumerate intervals))
    members.

(** A sum as the code accumulates it: from [0], one term after the other. *)
Definition raw_sum (terms : list num) : num := foldl add zero terms.

(** The importance of statistic [c] of interval [j] for a tree. *)
Definition importance (c : nat) (estimator : tree) (j : nat) : num :=
  feature_importances_ estimator !!! (3 * j + c)%nat.

(** [curve += np.where(mask of iv, v, 0)], position by position. *)
Definition bump (iv : Z * Z) (v : num) (curve : list num) : list num :=
  imap (fun t x => if covers iv t then add x v else x) curve.

(** What iteration [(j, iv)] on a tree needs in order not to raise: the
    interval inside a series of length [l], three importances at [3 * j]. *)
Definition step_ok (l : nat) (estimator : tree) (x : nat * (Z * Z)) : Prop :=
  0 ≤ x.2.1 ∧ x.2.2 ≤ Z.of_nat l ∧
  (3 * x.1 + 2 < length (feature_importances_ estimator))%nat.

(** A curve after the inner loop over one member, and after the outer loop
    over the members. *)
Definition curve_after_member (score : tree → nat → num)
    (curve : list num) (member : tree * list (Z * Z)) : list num :=
  foldl (fun c '(j, iv) => bump iv (score member.1 j) c) curve
    (enumerate member.2).

Definition curve_after (score : tree → nat → num)
    (members : list (tree * list (Z * Z))) (curve : list num) : list num :=
  foldl (curve_after_member score) curve members.

End Vocabulary.

(** ** When the curve computation runs *)

(** [np.put] accepts the indices of [range(start, end)] on an array of
    length [l]: the range is empty or lies in [[-l, l)]. *)
Definition puttable (l : nat) (iv : Z * Z) : bool :=
  (iv.2 <=? iv.1) || ((- Z.of_nat l <=? iv.1) && (iv.2 <=? Z.of_nat l)).

Section RunVocabulary.
Context {N : Numeric} {Lr : Learner N}.

(** Iteration [(j, iv)] on a tree runs through: the mask can be written and
    the tree has the three importances at [3 * j]. *)
Definition step_runs (l : nat) (estimator : tree) (x : nat * (Z * Z))
  : bool :=
  puttable l x.2 &&
  (3 * x.1 + 2 <? length (feature_importances_ estimator))%nat.

Definition member_runs (l : nat) (member : tree * list (Z * Z)) : bool :=
  forallb (step_runs l member.1) (enumerate member.2).

(** The series length and four curves of that length. *)
Definition shaped (l : nat) (self : Forest) : Prop :=
  series_length self = Z.of_nat l ∧
  ∃ mean stdev slope wts,
    curves_of self = (Some mean, Some stdev, Some slope, Some wts) ∧
    length mean = l ∧ length stdev = l ∧ length slope = l ∧ length wts = l.

End RunVocabulary.

(** ** Proof steps *)

(** Case analysis on an innermost scrutinee of the goal. *)
Ltac case_scrutinee :=
  match goal with
  | |- context [match ?x with _ => _ end] =>
      lazymatch x with
      | context [match _ with _ => _ end] => fail
      | _ => destruct x eqn:?; cbn
      end
  end.

(** * Properties *)

(** ** The generator *)

Lemma randint_inv high g v g' :
  randint high g = Ok (v, g') → 0 < high ∧ 0 ≤ v < high ∧ g' = advance g.
Proof.
  unfold randint. destruct (Z.leb_spec high 0) as [Hle | Hlt]; [done |].
  intros [= <- <-]. split; [lia |]. split; [| done].
  apply Z.mod_pos_bound. lia.
Qed.

Lemma randint_total high g :
  0 < high → ∃ v, randint high g = Ok (v, advance g) ∧ 0 ≤ v < high.
Proof.
  intros Hpos. exists (raw g (pos g) mod high). unfold randint.
  destruct (Z.leb_spec high 0); [lia |].
  split; [done |]. apply Z.mod_pos_bound. lia.
Qed.

Lemma randint_nonpositive high g : high ≤ 0 → randint high g = Raise ValueError.
Proof. intros H. unfold randint. destruct (Z.leb_spec high 0); [done | lia]. Qed.

(** Any outcome allowed by the bound is produced by some generator. *)
Lemma randint_any high v :
  0 ≤ v < high → ∃ g, randint high g = Ok (v, advance g).
Proof.
  intros Hv. exists (replay [v]). unfold randint.
  destruct (Z.leb_spec high 0); [lia |]. simpl.
  by rewrite Z.mod_small.
Qed.

(** ** The interval sampler *)

Lemma set_end_set_start j s e (intervals : list (Z * Z)) :
  set_end j e (set_start j s intervals) = <[j := (s, e)]> intervals.
Proof.
  unfold set_end, set_start. revert j.
  induction intervals as [| p l IH]; intros [| j]; try done.
  simpl. f_equal. apply IH.
Qed.

Lemma get_start_set_start j s (intervals : list (Z * Z)) :
  (j < length intervals)%nat → get_start j (set_start j s intervals) = s.
Proof.
  unfold get_start, set_start. revert j.
  induction intervals as [| p l IH]; intros [| j] Hj; simpl in *;
    try lia; try done.
  apply IH. lia.
Qed.

(** One iteration, read backwards: what a successful iteration has drawn
    and written. *)
Lemma interval_step_inv m l j intervals g intervals' g' :
  (j < length intervals)%nat →
  interval_step m l j (intervals, g) = Ok (intervals', g') →
  ∃ s c g1,
    randint (l - m) g = Ok (s, g1) ∧
    randint (l - s - 1) g1 = Ok (c, g') ∧
    intervals' = <[j := (s, s + clamp_length m c)]> intervals.
Proof.
  intros Hj. unfold interval_step.
  destruct (randint (l - m) g) as [[s g1] |] eqn:Hs; simpl; [| done].
  rewrite get_start_set_start by done.
  destruct (randint (l - s - 1) g1) as [[c g2] |] eqn:Hc; simpl; [| done].
  rewrite set_end_set_start. intros [= <- <-]. by exists s, c, g1.
Qed.

(** One iteration, read forwards, for a valid minimum length. *)
Lemma interval_step_total m l j intervals g :
  1 ≤ m < l → (j < length intervals)%nat →
  ∃ s c,
    randint (l - m) g = Ok (s, advance g) ∧
    randint (l - s - 1) (advance g) = Ok (c, advance (advance g)) ∧
    interval_step m l j (intervals, g) =
      Ok (<[j := (s, s + clamp_length m c)]> intervals,
          advance (advance g)).
Proof.
  intros Hm Hj.
  destruct (randint_total (l - m) g) as (s & Hs & Hsr); [lia |].
  destruct (randint_total (l - s - 1) (advance g)) as (c & Hc & Hcr); [lia |].
  exists s, c. split; [done |]. split; [done |].
  unfold interval_step. rewrite Hs. simpl.
  rewrite get_start_set_start by done. rewrite Hc. simpl.
  by rewrite set_end_set_start.
Qed.

(** Where the two draws put the interval. *)
Lemma drawn_interval_in_range m l s c :
  0 ≤ s < l - m → 0 ≤ c < l - s - 1 →
  0 ≤ s ≤ s + clamp_length m c ∧ s + clamp_length m c ≤ l - 1 ∧
  m ≤ clamp_length m c ∧
  (s + clamp_length m c = l - 1 → c < m).
Proof.
  intros Hs Hc. unfold clamp_length.
  destruct (Z.ltb_spec c m); lia.
Qed.

Lemma sampler_loop_inv m l js : ∀ intervals g intervals' g',
  (∀ j, j ∈ js → (j < length intervals)%nat) →
  for_each js (interval_step m l) (intervals, g) = Ok (intervals', g') →
  length intervals' = length intervals ∧
  (∀ i, i ∉ js → intervals' !! i = intervals !! i) ∧
  (∀ i, i ∈ js → ∃ iv, intervals' !! i = Some iv ∧ sampled m l iv).
Proof.
  induction js as [| j js IH]; intros intervals g intervals' g' Hjs Hrun.
  - simpl in Hrun. injection Hrun as <- <-.
    split; [done |]. split; [done |]. intros i Hi. by apply elem_of_nil in Hi.
  - cbn [for_each] in Hrun.
    destruct (interval_step m l j (intervals, g)) as [[iv1 g1] |] eqn:Hstep;
      simpl in Hrun; [| done].
    assert (Hj : (j < length intervals)%nat) by (apply Hjs, elem_of_cons; by left).
    apply interval_step_inv in Hstep as (s & c & g0 & Hs & Hc & ->); [| done].
    apply randint_inv in Hs as (_ & Hsr & _).
    apply randint_inv in Hc as (_ & Hcr & _).
    apply IH in Hrun as (Hlen & Hout & Hin).
    2: { intros j' Hj'. rewrite length_insert. apply Hjs, elem_of_cons. by right. }
    rewrite length_insert in Hlen.
    split; [done |]. split.
    + intros i Hi. rewrite Hout.
      * apply list_lookup_insert_ne. intros ->. apply Hi, elem_of_cons. by left.
      * intros Hi'. apply Hi, elem_of_cons. by right.
    + intros i Hi. destruct (decide (i ∈ js)) as [Hi' | Hi'].
      * by apply Hin.
      * apply elem_of_cons in Hi as [-> | Hi]; [| done].
        exists (s, s + clamp_length m c). split.
        -- rewrite Hout by done. by apply list_lookup_insert_eq.
        -- by exists s, c.
Qed.

Lemma sampler_loop_total m l js : ∀ intervals g,
  1 ≤ m < l →
  (∀ j, j ∈ js → (j < length intervals)%nat) →
  ∃ st, for_each js (interval_step m l) (intervals, g) = Ok st.
Proof.
  induction js as [| j js IH]; intros intervals g Hm Hjs.
  - by eexists.
  - destruct (interval_step_total m l j intervals g) as (s & c & _ & _ & Hstep);
      [done | apply Hjs, elem_of_cons; by left |].
    cbn [for_each]. rewrite Hstep. simpl. apply IH; [done |].
    intros j' Hj'. rewrite length_insert. apply Hjs, elem_of_cons. by right.
Qed.

Lemma range_elem (n : Z) (j : nat) : j ∈ range n ↔ (j < Z.to_nat n)%nat.
Proof. unfold range. rewrite elem_of_seq. lia. Qed.

(** Whenever the sampler returns, it returns [n_intervals] rows, each of
    them written by the loop. *)
Lemma get_intervals_inv k m l g intervals g' :
  _get_intervals k m l g = Ok (intervals, g') →
  0 ≤ k ∧ length intervals = Z.to_nat k ∧ Forall (sampled m l) intervals.
Proof.
  unfold _get_intervals, np_zeros_pairs.
  destruct (Z.ltb_spec k 0) as [Hneg | Hk]; simpl; [done |].
  intros Hrun. apply sampler_loop_inv in Hrun as (Hlen & _ & Hin).
  2: { intros j Hj. rewrite length_replicate. by apply range_elem. }
  rewrite length_replicate in Hlen.
  split; [done |]. split; [done |].
  apply Forall_lookup_2. intros i iv Hi.
  destruct (Hin i) as (iv' & Hiv' & Hs).
  - apply range_elem. rewrite <- Hlen. by eapply lookup_lt_Some.
  - congruence.
Qed.

Lemma get_intervals_total k m l g :
  0 ≤ k → 1 ≤ m < l → ∃ st, _get_intervals k m l g = Ok st.
Proof.
  intros Hk Hm. unfold _get_intervals, np_zeros_pairs.
  destruct (Z.ltb_spec k 0); [lia |]. simpl.
  apply sampler_loop_total; [done |].
  intros j Hj. rewrite length_replicate. by apply range_elem.
Qed.

(** With no interval to draw the generator is not consulted. *)
Lemma get_intervals_zero m l g : _get_intervals 0 m l g = Ok ([], g).
Proof. reflexivity. Qed.

(** The first draw of the first iteration fails when the minimum length
    does not fit. *)
Lemma get_intervals_raises k m l g :
  1 ≤ k → l ≤ m → _get_intervals k m l g = Raise ValueError.
Proof.
  intros Hk Hm. unfold _get_intervals, np_zeros_pairs.
  destruct (Z.ltb_spec k 0); [lia |]. simpl.
  unfold range. destruct (Z.to_nat k) as [| n] eqn:Hn; [lia |].
  cbn [seq for_each]. unfold interval_step.
  by rewrite randint_nonpositive by lia.
Qed.

(** Every interval the sampler returns, for whatever arguments, lies in
    [[0, series_length - 1]]. *)
Lemma sampled_in_range m l iv :
  sampled m l iv → 0 ≤ iv.1 ≤ iv.2 ∧ iv.2 ≤ l - 1.
Proof.
  intros (s & c & Hs & Hc & ->). simpl.
  pose proof (drawn_interval_in_range m l s c Hs Hc). lia.
Qed.

(** C1.  For a series length [L], an interval count [K >= 1] and a minimum
    length [m] with [1 <= m < L], the sampler returns [K] pairs
    [(start, end)], and each of them satisfies [0 <= start < end],
    [end - start >= m] and [end <= L - 1]: the interval lies within
    [[0, L)]. *)
Theorem C1_sampled_intervals_valid (L K m : Z) (g : RandomState) :
  1 ≤ K → 1 ≤ m < L →
  ∃ intervals g',
    _get_intervals K m L g = Ok (intervals, g') ∧
    Z.of_nat (length intervals) = K ∧
    Forall (fun iv =>
              0 ≤ iv.1 < iv.2 ∧ m ≤ iv.2 - iv.1 ∧ iv.2 ≤ L - 1 ∧
              ∀ t, iv.1 ≤ t < iv.2 → 0 ≤ t < L)
           intervals.
Proof.
  intros HK Hm.
  destruct (get_intervals_total K m L g) as [[intervals g'] Hrun];
    [lia | done |].
  exists intervals, g'. split; [done |].
  apply get_intervals_inv in Hrun as (_ & Hlen & Hall).
  split; [lia |].
  eapply Forall_impl; [exact Hall |].
  intros iv (s & c & Hs & Hc & ->). simpl.
  destruct (drawn_interval_in_range m L s c Hs Hc) as (H1 & H2 & H3 & _).
  split; [lia |]. split; [lia |]. split; [lia |]. intros t Ht. lia.
Qed.

Lemma C1_sampled_intervals_valid_witness :
  1 ≤ 2 ∧ 1 ≤ 3 < 8 ∧
  ∃ intervals g',
    _get_intervals 2 3 8 (replay [3; 1; 4; 1]) = Ok (intervals, g') ∧
    Z.of_nat (length intervals) = 2 ∧
    Forall (fun iv =>
              0 ≤ iv.1 < iv.2 ∧ 3 ≤ iv.2 - iv.1 ∧ iv.2 ≤ 8 - 1 ∧
              ∀ t, iv.1 ≤ t < iv.2 → 0 ≤ t < 8)
           intervals.
Proof.
  split; [lia |]. split; [lia |].
  apply (C1_sampled_intervals_valid 8 2 3 (replay [3; 1; 4; 1])); lia.
Defined.

(** C2, as the specification states it, fails.  At the boundary where the
    clamp applies with the least room ([L = 4], [m = 3]: start [0], candidate
    length [0] clamped to [3]) the end is [3 = L - 1], not beyond; and for no
    valid input does the sampler return an interval whose end exceeds
    [L - 1]. *)
Lemma C2_end_never_exceeds_bound :
  (∃ g', _get_intervals 1 3 4 (replay [0; 0]) = Ok ([(0, 3)], g')) ∧
  ¬ ∃ (L K m : Z) (g : RandomState) intervals g',
      1 ≤ m < L ∧
      _get_intervals K m L g = Ok (intervals, g') ∧
      Exists (fun iv : Z * Z => L - 1 < iv.2) intervals.
Proof.
  split; [by eexists |].
  intros (L & K & m & g & intervals & g' & Hm & Hrun & Hex).
  apply get_intervals_inv in Hrun as (_ & _ & Hall).
  apply Exists_exists in Hex as (iv & Hin & Hgt).
  eapply Forall_forall in Hall; [| exact Hin].
  apply sampled_in_range in Hall. lia.
Qed.

(** C2, amended.  For a valid input ([1 <= m < L]) an iteration of the
    sampler draws a start [s] and a candidate length [c] and writes the
    interval [(s, s + clamp_length m c)]; its end is at most [L - 1], and it
    is [L - 1] only when the candidate was clamped ([c < m]).  The bound is
    reached: some generator makes the sampler return [(L - m - 1, L - 1)]. *)
Theorem C2_end_reaches_bound_only_by_clamping
    (L m : Z) (j : nat) (intervals : list (Z * Z)) (g : RandomState) :
  1 ≤ m < L → (j < length intervals)%nat →
  (∃ s c,
     randint (L - m) g = Ok (s, advance g) ∧
     randint (L - s - 1) (advance g) = Ok (c, advance (advance g)) ∧
     interval_step m L j (intervals, g) =
       Ok (<[j := (s, s + clamp_length m c)]> intervals,
           advance (advance g)) ∧
     s + clamp_length m c ≤ L - 1 ∧
     (s + clamp_length m c = L - 1 → c < m) ∧
     (m ≤ c → s + clamp_length m c ≤ L - 2)) ∧
  (∃ g0 g0', _get_intervals 1 m L g0 = Ok ([(L - m - 1, L - 1)], g0')).
Proof.
  intros Hm Hj. split.
  - destruct (interval_step_total m L j intervals g Hm Hj)
      as (s & c & Hs & Hc & Hstep).
    exists s, c. repeat split; try done.
    + apply randint_inv in Hs as (_ & Hsr & _).
      apply randint_inv in Hc as (_ & Hcr & _).
      pose proof (drawn_interval_in_range m L s c Hsr Hcr). lia.
    + apply randint_inv in Hs as (_ & Hsr & _).
      apply randint_inv in Hc as (_ & Hcr & _).
      by apply (drawn_interval_in_range m L s c).
    + apply randint_inv in Hs as (_ & Hsr & _).
      apply randint_inv in Hc as (_ & Hcr & _).
      unfold clamp_length. destruct (Z.ltb_spec c m); lia.
  - exists (replay [L - m - 1; 0]), (advance (advance (replay [L - m - 1; 0]))).
    unfold _get_intervals, np_zeros_pairs. simpl.
    unfold interval_step, randint.
    destruct (Z.leb_spec (L - m) 0); [lia |]. simpl.
    rewrite (Z.mod_small (L - m - 1)) by lia.
    unfold get_start. simpl.
    destruct (Z.leb_spec (L - (L - m - 1) - 1) 0); [lia |]. simpl.
    unfold clamp_length. rewrite Z.mod_0_l by lia.
    destruct (Z.ltb_spec 0 m); [| lia].
    by replace (L - m - 1 + m) with (L - 1) by lia.
Qed.

Lemma C2_end_reaches_bound_only_by_clamping_witness :
  1 ≤ 3 < 4 ∧ (0 < length [(0, 0)])%nat ∧
  ((∃ s c,
      randint (4 - 3) (replay [0; 0]) = Ok (s, advance (replay [0; 0])) ∧
      randint (4 - s - 1) (advance (replay [0; 0]))
        = Ok (c, advance (advance (replay [0; 0]))) ∧
      interval_step 3 4 0 ([(0, 0)], replay [0; 0]) =
        Ok (<[0%nat := (s, s + clamp_length 3 c)]> [(0, 0)],
            advance (advance (replay [0; 0]))) ∧
      s + clamp_length 3 c ≤ 4 - 1 ∧
      (s + clamp_length 3 c = 4 - 1 → c < 3) ∧
      (3 ≤ c → s + clamp_length 3 c ≤ 4 - 2)) ∧
   (∃ g0 g0', _get_intervals 1 3 4 g0 = Ok ([(4 - 3 - 1, 4 - 1)], g0'))).
Proof.
  split; [lia |]. split; [simpl; lia |].
  apply (C2_end_reaches_bound_only_by_clamping 4 3 0 [(0, 0)] (replay [0; 0]));
    [lia | simpl; lia].
Defined.

(** ** More on the interval sampler *)





(** X2.  Whatever the arguments, when the sampler returns it returns
    [n_intervals] pairs, and each of them satisfies
    [0 <= start <= end <= series_length - 1] and
    [end - start >= min_interval]: no argument makes it return an interval
    that leaves the series. *)
Theorem X2_sampler_never_leaves_the_series
    (K m L : Z) (g g' : RandomState) (intervals : list (Z * Z)) :
  _get_intervals K m L g = Ok (intervals, g') →
  0 ≤ K ∧ Z.of_nat (length intervals) = K ∧
  Forall (fun iv : Z * Z =>
            0 ≤ iv.1 ≤ iv.2 ∧ iv.2 ≤ L - 1 ∧ m ≤ iv.2 - iv.1)
         intervals.
Proof.
  intros Hrun. apply get_intervals_inv in Hrun as (HK & Hlen & Hall).
  split; [done |]. split; [lia |].
  eapply Forall_impl; [exact Hall |].
  intros iv (s & c & Hs & Hc & ->). simpl.
  destruct (drawn_interval_in_range m L s c Hs Hc) as (H1 & H2 & H3 & _).
  lia.
Qed.

Lemma X2_sampler_never_leaves_the_series_witness :
  ∃ g',
    _get_intervals 2 0 5 (replay [1; 0; 2; 1]) = Ok ([(1, 1); (2, 3)], g') ∧
    0 ≤ 2 ∧ Z.of_nat (length [(1, 1); (2, 3)]) = 2 ∧
    Forall (fun iv : Z * Z =>
              0 ≤ iv.1 ≤ iv.2 ∧ iv.2 ≤ 5 - 1 ∧ 0 ≤ iv.2 - iv.1)
           [(1, 1); (2, 3)].
Proof.
  eexists. split; [reflexivity |].
  eapply (X2_sampler_never_leaves_the_series 2 0 5 (replay [1; 0; 2; 1]) _
            [(1, 1); (2, 3)]).
  reflexivity.
Defined.




Lemma Forall_eq_replicate {A} (x : A) (l : list A) :
  Forall (fun y => y = x) l → l = replicate (length l) x.
Proof. induction 1 as [| y l -> _ IH]; simpl; [done | by f_equal]. Qed.

(** X4.  On a series one point longer than the minimum interval length the
    draws do not matter: the start can only be [0], every candidate length is
    below the minimum and is clamped, so every interval is
    [(0, min_interval)]. *)
Theorem X4_shortest_series_has_one_possible_interval
    (K m : Z) (g : RandomState) :
  0 ≤ K → 1 ≤ m →
  ∃ g', _get_intervals K m (m + 1) g = Ok (replicate (Z.to_nat K) (0, m), g').
Proof.
  intros HK Hm.
  destruct (get_intervals_total K m (m + 1) g) as [[intervals g'] Hrun];
    [done | lia |].
  exists g'. rewrite Hrun. do 2 f_equal.
  apply get_intervals_inv in Hrun as (_ & <- & Hall).
  apply Forall_eq_replicate.
  eapply Forall_impl; [exact Hall |].
  intros iv (s & c & Hs & Hc & ->). unfold clamp_length.
  destruct (Z.ltb_spec c m); [| lia]. f_equal; lia.
Qed.

Lemma X4_shortest_series_has_one_possible_interval_witness :
  0 ≤ 2 ∧ 1 ≤ 3 ∧
  ∃ g', _get_intervals 2 3 (3 + 1) (replay [9; 8; 7; 6])
        = Ok (replicate (Z.to_nat 2) (0, 3), g').
Proof.
  split; [lia |]. split; [lia |].
  apply (X4_shortest_series_has_one_possible_interval 2 3
           (replay [9; 8; 7; 6])); lia.
Defined.

(** ** [_fit] *)

Section FitProperties.
Context {N : Numeric} {Lr : Learner N} {Rt : Runtime tree}.
Context {RL : RuntimeLaws Rt}.

(** [_fit], statement by statement: the series length is stored first; a
    refused seed stops the call there; then the attributes of [prepared] are
    set; the intervals are stored when all of them are drawn; the trees and
    the fitted flag are stored when [Parallel] has returned. *)
Lemma fit_unfold global sched (X : Panel) y (self : Forest) :
  _fit global sched X y self =
    match check_random_state global (random_state self) with
    | Raise e => (Raise e, set_series_length (Z.of_nat (panel_length X)) self)
    | Ok rng0 =>
        let p := prepared X y self in
        match sample_members (n_estimators p) (n_intervals p) (min_interval p)
                (series_length p) rng0 with
        | Raise e => (Raise e, p)
        | Ok (intervals, rng) =>
            let p1 := set_intervals_ intervals p in
            match Parallel (check_n_jobs (n_jobs self)) sched
                    (member_tasks (_estimator self) X y intervals
                       (n_estimators self) rng).1 with
            | Raise e => (Raise e, p1)
            | Ok fitted =>
                (Ok tt, set_is_fitted true (set_estimators_ fitted p1))
            end
        end
    end.
Proof.
  destruct self as [base rs n m j nc l k es ivs cs fitted mc sd sl wc].
  unfold _fit, prepared, bind, assign, attr, raising, ret.
  cbn [random_state set_series_length].
  destruct (check_random_state global rs) as [rng0 |]; [| done]. cbn.
  destruct (Z.sqrt (Z.of_nat (panel_length X)) =? 0) eqn:Hk; cbn;
    destruct (Z.of_nat (panel_length X) <? m) eqn:Hm; cbn;
    match goal with
    | |- context [sample_members ?a ?b ?c ?d ?e] =>
        destruct (sample_members a b c d e) as [[intervals rng] |]
    end; cbn; try done;
    match goal with
    | |- context [Parallel ?a ?b ?c] => destruct (Parallel a b c)
    end; done.
Qed.

(** The seed check: an integer seed is judged alike whatever generator
    exists outside the call, and nothing but [ValueError] is raised. *)
Lemma check_random_state_seeded global1 global2 seed :
  check_random_state global1 (RSInt seed)
    = check_random_state global2 (RSInt seed).
Proof. done. Qed.

Lemma check_random_state_raises global seed e :
  check_random_state global seed = Raise e → e = ValueError.
Proof.
  destruct seed as [| s |]; cbn [check_random_state]; [done | | done].
  destruct (_ && _); [done |]. by intros [= <-].
Qed.

(** What [prepared] leaves alone and what it sets. *)
Lemma prepared_attributes (X : Panel) y (self : Forest) :
  let p := prepared X y self in
  let l := Z.of_nat (panel_length X) in
  _estimator p = _estimator self ∧ random_state p = random_state self ∧
  n_estimators p = n_estimators self ∧ n_jobs p = n_jobs self ∧
  estimators_ p = estimators_ self ∧ intervals_ p = intervals_ self ∧
  _is_fitted p = _is_fitted self ∧
  series_length p = l ∧ classes_ p = np_unique y ∧
  n_intervals p = (if Z.sqrt l =? 0 then 1 else Z.sqrt l) ∧
  min_interval p = (if l <? min_interval self then l else min_interval self).
Proof.
  destruct self as [base rs n m j nc l k es ivs cs fitted mc sd sl wc].
  unfold prepared. cbn.
  destruct (Z.of_nat (panel_length X) <? m); cbn; repeat split; done.
Qed.

(** The comprehension that draws the members' intervals. *)
Lemma sample_members_loop_inv k m l (xs : list nat) : ∀ acc g out g',
  for_each xs
    (fun _ '(acc, rng) =>
       let? (intervals, rng) := _get_intervals k m l rng in
       Ok (acc ++ [intervals], rng))
    (acc, g) = Ok (out, g') →
  ∃ new, out = acc ++ new ∧ length new = length xs ∧
    Forall (fun ivs => length ivs = Z.to_nat k ∧ Forall (sampled m l) ivs) new.
Proof.
  induction xs as [| x xs IH]; intros acc g out g' Hrun.
  - injection Hrun as <- <-. exists []. by rewrite app_nil_r.
  - cbn [for_each] in Hrun.
    destruct (_get_intervals k m l g) as [[ivs g1] |] eqn:Hget;
      simpl in Hrun; [| done].
    apply IH in Hrun as (new & -> & Hlen & Hall).
    apply get_intervals_inv in Hget as (_ & Hk & Hs).
    exists (ivs :: new). rewrite <- app_assoc. simpl.
    split; [done |]. split; [by rewrite Hlen |]. by constructor.
Qed.

Lemma sample_members_inv n k m l g out g' :
  sample_members n k m l g = Ok (out, g') →
  length out = Z.to_nat n ∧
  Forall (fun ivs => length ivs = Z.to_nat k ∧ Forall (sampled m l) ivs) out.
Proof.
  unfold sample_members. intros Hrun.
  apply sample_members_loop_inv in Hrun as (new & -> & Hlen & Hall).
  simpl. split; [| done]. rewrite Hlen. unfold range. apply length_seq.
Qed.

Lemma sample_members_raises n k m l g :
  1 ≤ n → 1 ≤ k → l ≤ m → sample_members n k m l g = Raise ValueError.
Proof.
  intros Hn Hk Hm. unfold sample_members, range.
  destruct (Z.to_nat n) as [| n'] eqn:Hn'; [lia |].
  cbn [seq for_each]. by rewrite get_intervals_raises.
Qed.

Lemma member_tasks_length base (X : Panel) y intervals n g :
  length (member_tasks base X y intervals n g).1 = Z.to_nat n.
Proof.
  unfold member_tasks, range.
  assert (H : ∀ xs acc g0,
    length (foldl
      (fun '(tasks, rng) i =>
         let '(estimator, rng) := _clone_estimator base rng in
         (tasks ++ [let? ivs := getitem intervals i in
                    _fit_estimator estimator X y ivs], rng))
      (acc, g0) xs).1 = (length acc + length xs)%nat).
  { induction xs as [| x xs IH]; intros acc g0; simpl; [lia |].
    destruct (_clone_estimator base g0) as [est g1].
    rewrite IH, length_app. simpl. lia. }
  rewrite H. simpl. by rewrite length_seq.
Qed.

(** A call of [_fit] that returns: what it has stored. *)
Lemma fit_returns_inv global sched (X : Panel) y (self self' : Forest) :
  _fit global sched X y self = (Ok tt, self') →
  let p := prepared X y self in
  ∃ rng0 intervals rng fitted,
    check_random_state global (random_state self) = Ok rng0 ∧
    sample_members (n_estimators p) (n_intervals p) (min_interval p)
      (series_length p) rng0
      = Ok (intervals, rng) ∧
    Parallel (check_n_jobs (n_jobs self)) sched
      (member_tasks (_estimator self) X y intervals (n_estimators self) rng).1
      = Ok fitted ∧
    self' = set_is_fitted true (set_estimators_ fitted
              (set_intervals_ intervals p)).
Proof.
  rewrite fit_unfold. cbn zeta.
  destruct (check_random_state _ _) as [rng0 |]; [| done].
  destruct (sample_members _ _ _ _ _) as [[intervals rng] |] eqn:Hsam;
    [| done].
  destruct (Parallel _ _ _) as [fitted |] eqn:Hpar; [| done].
  intros [= <-]. by exists rng0, intervals, rng, fitted.
Qed.

(** [np.unique]. *)
Lemma insert_unique_elem x l z : z ∈ insert_unique x l ↔ z = x ∨ z ∈ l.
Proof.
  induction l as [| h t IH]; simpl.
  - rewrite elem_of_cons, elem_of_nil. tauto.
  - destruct (Z.ltb_spec x h); [by rewrite elem_of_cons |].
    destruct (Z.eqb_spec x h) as [-> | Hne].
    + rewrite elem_of_cons. tauto.
    + rewrite !elem_of_cons, IH. tauto.
Qed.

Lemma insert_unique_sorted x l :
  StronglySorted Z.lt l → StronglySorted Z.lt (insert_unique x l).
Proof.
  induction 1 as [| h t Hs IH Hh]; simpl.
  - repeat constructor.
  - destruct (Z.ltb_spec x h) as [Hlt | Hge].
    + constructor; [by constructor |]. constructor; [done |].
      eapply Forall_impl; [exact Hh |]. simpl. lia.
    + destruct (Z.eqb_spec x h) as [-> | Hne]; [by constructor |].
      constructor; [done |]. apply Forall_forall. intros z Hz.
      apply insert_unique_elem in Hz as [-> | Hz]; [lia |].
      by eapply Forall_forall in Hh.
Qed.

Lemma np_unique_elem y z : z ∈ np_unique y ↔ z ∈ y.
Proof.
  induction y as [| h t IH]; simpl; [done |].
  rewrite insert_unique_elem, elem_of_cons, IH. tauto.
Qed.

Lemma np_unique_sorted y : StronglySorted Z.lt (np_unique y).
Proof.
  induction y as [| h t IH]; simpl; [constructor |].
  by apply insert_unique_sorted.
Qed.

Lemma strictly_sorted_NoDup (l : list Z) : StronglySorted Z.lt l → NoDup l.
Proof.
  induction 1 as [| h t Hs IH Hh]; constructor; [| done].
  intros Hin. eapply Forall_forall in Hh; [| exact Hin]. lia.
Qed.

(** The configuration after a call of [_fit], whether it returns or raises:
    only [min_interval] can have changed, and only when the seed check let
    the call go on. *)
Lemma fit_final_attributes global sched (X : Panel) y (self : Forest) :
  let self' := (_fit global sched X y self).2 in
  let l := Z.of_nat (panel_length X) in
  _estimator self' = _estimator self ∧
  random_state self' = random_state self ∧
  n_estimators self' = n_estimators self ∧ n_jobs self' = n_jobs self ∧
  series_length self' = l ∧
  min_interval self' =
    match check_random_state global (random_state self) with
    | Ok _ => if l <? min_interval self then l else min_interval self
    | Raise _ => min_interval self
    end.
Proof.
  cbn zeta. rewrite fit_unfold. cbn zeta.
  pose proof (prepared_attributes X y self) as Hp. cbn zeta in Hp.
  destruct Hp as (H1 & H2 & H3 & H4 & _ & _ & _ & H5 & H6 & H7 & H8).
  destruct (check_random_state _ _) as [rng0 |]; [| by destruct self].
  destruct (sample_members _ _ _ _ _) as [[intervals rng] |]; cbn;
    [| by repeat split].
  destruct (Parallel _ _ _) as [fitted |]; cbn; by repeat split.
Qed.

(** No call of [_fit] makes [min_interval] larger. *)
Lemma fit_min_interval_le global sched (X : Panel) y (self : Forest) :
  min_interval (_fit global sched X y self).2 ≤ min_interval self.
Proof.
  pose proof (fit_final_attributes global sched X y self) as H.
  cbn zeta in H. destruct H as (_ & _ & _ & _ & _ & ->).
  destruct (check_random_state _ _); [| lia].
  destruct (Z.ltb_spec (Z.of_nat (panel_length X)) (min_interval self)); lia.
Qed.

(** The arguments with which [_fit] calls the sampler. *)
Lemma prepared_sampler_arguments (X : Panel) y (self : Forest) :
  let p := prepared X y self in
  let l := Z.of_nat (panel_length X) in
  1 ≤ n_intervals p ∧ series_length p = l ∧
  (l ≤ min_interval self → l ≤ min_interval p).
Proof.
  cbn zeta.
  pose proof (prepared_attributes X y self) as Hp. cbn zeta in Hp.
  destruct Hp as (_ & _ & _ & _ & _ & _ & _ & H5 & _ & H7 & H8).
  rewrite H5, H7, H8. split; [| split; [done |]].
  - pose proof (Z.sqrt_nonneg (Z.of_nat (panel_length X))).
    destruct (Z.eqb_spec (Z.sqrt (Z.of_nat (panel_length X))) 0); lia.
  - intros Hl. destruct (Z.ltb_spec (Z.of_nat (panel_length X))
                           (min_interval self)); lia.
Qed.

(** C3.  Two executions of [_fit] on the same panel and labels, with the
    same integer seed, minimum interval length and ensemble size, store the
    same intervals for every member and the same [classes_], in the same
    order.  Nothing else enters: not the parallelism degree [n_jobs], not the
    order in which the workers run, not the global generator, not what the
    objects held before. *)
Theorem C3_fit_deterministic_for_a_seed
    (global1 global2 : RandomState) (sched1 sched2 : schedule)
    (X : Panel) (y : list Z) (self1 self2 self1' : Forest) (seed : Z) :
  random_state self1 = RSInt seed →
  random_state self2 = RSInt seed →
  min_interval self1 = min_interval self2 →
  n_estimators self1 = n_estimators self2 →
  _fit global1 sched1 X y self1 = (Ok tt, self1') →
  let self2' := (_fit global2 sched2 X y self2).2 in
  intervals_ self2' = intervals_ self1' ∧ classes_ self2' = classes_ self1'.
Proof.
  intros Hs1 Hs2 Hm Hn Hfit1. cbn zeta.
  apply fit_returns_inv in Hfit1
    as (rng0 & ivs & rng & fitted & Hseed & Hsam & _ & ->).
  cbn zeta in Hsam. rewrite fit_unfold. cbn zeta.
  pose proof (prepared_attributes X y self1) as Hp1. cbn zeta in Hp1.
  pose proof (prepared_attributes X y self2) as Hp2. cbn zeta in Hp2.
  destruct Hp1 as (_ & _ & N1 & _ & _ & _ & _ & L1 & C1 & K1 & M1).
  destruct Hp2 as (_ & _ & N2 & _ & _ & _ & _ & L2 & C2 & K2 & M2).
  rewrite Hs1, (check_random_state_seeded _ global2) in Hseed.
  rewrite Hs2, Hseed.
  rewrite N2, K2, M2, L2. rewrite N1, K1, M1, L1 in Hsam.
  rewrite <- Hm, <- Hn, Hsam.
  destruct (Parallel _ _ _) as [fitted2 |]; cbn; by rewrite C1, C2.
Qed.

(** C5.  For an interval count [K >= 1]: when the minimum length [m] is at
    least the series length [L], the sampler raises (its first draw has a
    bound [L - m <= 0]); when [1 <= m < L] it returns [K] intervals.  Hence
    [_fit], on a forest of at least one member, raises whenever the series
    length is at most the configured [min_interval], and the forest is not
    marked fitted by that call. *)
Theorem C5_sampling_raises_when_minimum_does_not_fit
    (global : RandomState) (sched : schedule) (X : Panel) (y : list Z)
    (self : Forest) (K m L : Z) (g : RandomState) :
  1 ≤ K →
  (L ≤ m → _get_intervals K m L g = Raise ValueError) ∧
  (1 ≤ m < L →
   ∃ intervals g',
     _get_intervals K m L g = Ok (intervals, g') ∧
     Z.of_nat (length intervals) = K) ∧
  (1 ≤ n_estimators self →
   Z.of_nat (panel_length X) ≤ min_interval self →
   ∃ self',
     _fit global sched X y self = (Raise ValueError, self') ∧
     _is_fitted self' = _is_fitted self ∧
     intervals_ self' = intervals_ self ∧
     estimators_ self' = estimators_ self).
Proof.
  intros HK. split; [| split].
  - intros Hm. by apply get_intervals_raises.
  - intros Hm.
    destruct (get_intervals_total K m L g) as [[intervals g'] Hrun];
      [lia | done |].
    exists intervals, g'. split; [done |].
    apply get_intervals_inv in Hrun as (_ & Hlen & _). lia.
  - intros Hn Hl. rewrite fit_unfold. cbn zeta.
    pose proof (prepared_attributes X y self) as Hp. cbn zeta in Hp.
    destruct Hp as (_ & _ & N1 & _ & E1 & I1 & F1 & _).
    destruct (prepared_sampler_arguments X y self) as (Hk & HL & Hmin).
    destruct (check_random_state _ _) as [rng0 |] eqn:Hseed.
    + rewrite sample_members_raises; [| lia | done |].
      * by exists (prepared X y self).
      * rewrite HL. by apply Hmin.
    + apply check_random_state_raises in Hseed as ->.
      by exists (set_series_length (Z.of_nat (panel_length X)) self).
Qed.

(** C9.  A call of [_fit] that returns, with ensemble size [M], on a panel of
    series of length [L], leaves [M] fitted estimators and [M] interval sets;
    each interval set has [floor (sqrt L)] intervals, [1] if that is [0];
    [classes_] holds the distinct labels, each once, in ascending order; the
    forest is marked fitted. *)
Theorem C9_fit_stores_members
    (global : RandomState) (sched : schedule) (X : Panel) (y : list Z)
    (self self' : Forest) (M : Z) :
  n_estimators self = M → 0 ≤ M →
  _fit global sched X y self = (Ok tt, self') →
  let L := Z.of_nat (panel_length X) in
  Z.of_nat (length (estimators_ self')) = M ∧
  Z.of_nat (length (intervals_ self')) = M ∧
  Forall (fun ivs : list (Z * Z) =>
            Z.of_nat (length ivs) = (if Z.sqrt L =? 0 then 1 else Z.sqrt L))
         (intervals_ self') ∧
  NoDup (classes_ self') ∧
  StronglySorted Z.lt (classes_ self') ∧
  (∀ c, c ∈ classes_ self' ↔ c ∈ y) ∧
  _is_fitted self' = true.
Proof.
  intros HM HM0 Hfit. cbn zeta.
  apply fit_returns_inv in Hfit
    as (rng0 & ivs & rng & fitted & _ & Hsam & Hpar & ->).
  cbn zeta in Hsam.
  pose proof (prepared_attributes X y self) as Hp. cbn zeta in Hp.
  destruct Hp as (_ & _ & N1 & _ & _ & _ & _ & L1 & C1 & K1 & _).
  apply sample_members_inv in Hsam as (Hlen & Hall).
  apply Parallel_ordered in Hpar.
  apply (f_equal length) in Hpar.
  rewrite member_tasks_length, length_fmap in Hpar.
  cbn. rewrite C1. split; [lia |]. split; [lia |]. split.
  { eapply Forall_impl; [exact Hall |]. simpl. intros iv [Hiv _].
    rewrite Hiv, K1.
    pose proof (Z.sqrt_nonneg (Z.of_nat (panel_length X))).
    destruct (Z.sqrt (Z.of_nat (panel_length X)) =? 0); lia. }
  split; [apply strictly_sorted_NoDup, np_unique_sorted |].
  split; [apply np_unique_sorted |].
  split; [apply np_unique_elem | done].
Qed.

(** C10.  [_fit] checks the seed before it compares the series length [L]
    with [min_interval].  When [check_random_state] accepts the seed
    ([None], a generator object, an integer in [0, 2**32 - 1]) and
    [L < min_interval], the call, whether it then returns or raises, leaves
    [min_interval] equal to [L], and no later call of [_fit] brings the
    configured value back: the attribute never exceeds [L] again; when
    [min_interval <= L] it is left as it was.  When the seed is refused the
    call raises [ValueError] and [min_interval] is left as it was, whatever
    [L] is.  In every case [n_estimators], [n_jobs] and [random_state] are
    not assigned: they hold what they held before the call (for a generator
    object, the same object). *)
Theorem C10_fit_overwrites_min_interval
    (global : RandomState) (sched : schedule) (X : Panel) (y : list Z)
    (self : Forest) :
  let L := Z.of_nat (panel_length X) in
  let after := _fit global sched X y self in
  (∀ rng, check_random_state global (random_state self) = Ok rng →
     (L < min_interval self →
      min_interval after.2 = L ∧
      ∀ global2 sched2 (X2 : Panel) y2,
        min_interval (_fit global2 sched2 X2 y2 after.2).2 ≤ L) ∧
     (min_interval self ≤ L → min_interval after.2 = min_interval self)) ∧
  (∀ e, check_random_state global (random_state self) = Raise e →
     after.1 = Raise ValueError ∧
     min_interval after.2 = min_interval self) ∧
  n_estimators after.2 = n_estimators self ∧
  n_jobs after.2 = n_jobs self ∧
  random_state after.2 = random_state self.
Proof.
  cbn zeta.
  pose proof (fit_final_attributes global sched X y self) as H. cbn zeta in H.
  destruct H as (_ & Hrs & Hn & Hj & _ & Hm).
  split; [| split; [| done]].
  - intros rng Hseed. rewrite Hseed in Hm. split.
    + intros Hlt.
      assert (Hnew : min_interval (_fit global sched X y self).2
                     = Z.of_nat (panel_length X)).
      { rewrite Hm.
        by destruct (Z.ltb_spec (Z.of_nat (panel_length X))
                       (min_interval self)); [| lia]. }
      split; [done |]. intros global2 sched2 X2 y2. rewrite <- Hnew.
      apply fit_min_interval_le.
    + intros Hle. rewrite Hm.
      destruct (Z.ltb_spec (Z.of_nat (panel_length X)) (min_interval self));
        [lia | done].
  - intros e Hseed. rewrite Hseed in Hm. split; [| done].
    rewrite fit_unfold, Hseed. cbn [fst].
    by apply check_random_state_raises in Hseed as ->.
Qed.

End FitProperties.

(** ** [_transform] *)

Section TransformProperties.
Context {N : Numeric}.

Lemma setitem_in_range {A} (i : nat) (v : A) (a : list A) :
  (i < length a)%nat → setitem i v a = Ok (<[i := v]> a).
Proof. intros Hi. unfold setitem. by rewrite decide_True. Qed.

(** For non-negative bounds a Python slice is the sub-range. *)
Lemma py_slice_sub_range {A} (a b : Z) (row : list A) :
  0 ≤ a → 0 ≤ b → py_slice a b row = sub_range a b row.
Proof.
  intros Ha Hb. unfold py_slice, sub_range, slice_bound.
  destruct (Z.ltb_spec a 0); [lia |]. destruct (Z.ltb_spec b 0); [lia |].
  destruct (decide (Z.of_nat (length row) ≤ a)) as [Hout | Hin].
  - rewrite !drop_ge by lia. by rewrite !take_nil.
  - replace (Z.to_nat (Z.min a (Z.of_nat (length row)))) with (Z.to_nat a)
      by lia.
    destruct (decide (b ≤ Z.of_nat (length row))) as [Hb' | Hb'].
    + f_equal. lia.
    + rewrite !take_ge; [done | |]; rewrite length_drop; lia.
Qed.

Lemma transform_step_in_range (X : Panel) intervals j t :
  (3 * j + 2 < length t)%nat →
  ∃ t', transform_step X intervals j t = Ok t' ∧
    length t' = length t ∧
    (∀ i, (i `div` 3 ≠ j)%nat → t' !! i = t !! i) ∧
    (∀ c, (c < 3)%nat →
       t' !! (3 * j + c)%nat = feature_rows X intervals j !! c).
Proof.
  intros Hj. unfold transform_step.
  rewrite setitem_in_range by lia. cbn [rbind].
  rewrite setitem_in_range by (rewrite length_insert; lia). cbn [rbind].
  rewrite setitem_in_range by (rewrite !length_insert; lia).
  eexists. split; [done |]. split; [by rewrite !length_insert |]. split.
  - intros i Hi.
    assert (i ≠ 3 * j ∧ i ≠ 3 * j + 1 ∧ i ≠ 3 * j + 2)%nat as (H0 & H1 & H2).
    { repeat split; intros ->; apply Hi; symmetry;
        [apply (Nat.div_unique _ 3 j 0) | apply (Nat.div_unique _ 3 j 1)
        | apply (Nat.div_unique _ 3 j 2)]; lia. }
    by rewrite !list_lookup_insert_ne by done.
  - intros c Hc. unfold feature_rows. cbn zeta.
    destruct c as [| [| [| c]]]; [| | | lia].
    + rewrite Nat.add_0_r.
      rewrite !list_lookup_insert_ne by lia.
      by rewrite list_lookup_insert_eq by lia.
    + rewrite list_lookup_insert_ne by lia.
      by rewrite list_lookup_insert_eq by (rewrite length_insert; lia).
    + by rewrite list_lookup_insert_eq by (rewrite !length_insert; lia).
Qed.

Lemma transform_loop (X : Panel) intervals js : ∀ t,
  (∀ j, j ∈ js → (3 * j + 2 < length t)%nat) →
  ∃ t', for_each js (transform_step X intervals) t = Ok t' ∧
    length t' = length t ∧
    (∀ i, (i `div` 3)%nat ∉ js → t' !! i = t !! i) ∧
    (∀ j c, j ∈ js → (c < 3)%nat →
       t' !! (3 * j + c)%nat = feature_rows X intervals j !! c).
Proof.
  induction js as [| j0 js IH]; intros t Hjs.
  - exists t. split; [done |]. split; [done |]. split; [done |].
    intros j c Hj. by apply elem_of_nil in Hj.
  - destruct (transform_step_in_range X intervals j0 t)
      as (t1 & Hstep & Hlen1 & Hout1 & Hin1).
    { apply Hjs, elem_of_cons. by left. }
    destruct (IH t1) as (t' & Hrun & Hlen & Hout & Hin).
    { intros j Hj. rewrite Hlen1. apply Hjs, elem_of_cons. by right. }
    exists t'. cbn [for_each]. rewrite Hstep. cbn [rbind].
    split; [done |]. split; [congruence |]. split.
    + intros i Hi. rewrite Hout, Hout1; [done | |].
      * intros <-. apply Hi, elem_of_cons. by left.
      * intros Hi'. apply Hi, elem_of_cons. by right.
    + intros j c Hj Hc. destruct (decide (j ∈ js)) as [Hj' | Hj'].
      * by apply Hin.
      * apply elem_of_cons in Hj as [-> | Hj]; [| done].
        rewrite Hout; [by apply Hin1 |].
        replace ((3 * j0 + c) `div` 3)%nat with j0; [done |].
        apply (Nat.div_unique _ 3 j0 c); lia.
Qed.

(** C6.  For a panel of [N] series and [K] intervals with non-negative
    bounds, the extractor returns a matrix of [N] rows and [3 * K] columns.
    Row [i] comes from series [i]: its columns [3 * j], [3 * j + 1] and
    [3 * j + 2] hold the mean, the standard deviation and the slope of that
    series over the sub-range [[start_j, end_j)], as stored in a [float32]
    array. *)
Theorem C6_transform_shape_and_layout (X : Panel) (intervals : list (Z * Z)) :
  Forall (fun iv : Z * Z => 0 ≤ iv.1 ∧ 0 ≤ iv.2) intervals →
  ∃ Xt,
    _transform X intervals = Ok Xt ∧
    length Xt = length (panel_rows X) ∧
    Forall (fun row => length row = (3 * length intervals)%nat) Xt ∧
    ∀ i j series iv,
      panel_rows X !! i = Some series →
      intervals !! j = Some iv →
      ∃ row,
        Xt !! i = Some row ∧
        row !! (3 * j)%nat
          = Some (float32 (np_mean (sub_range iv.1 iv.2 series))) ∧
        row !! (3 * j + 1)%nat
          = Some (float32 (np_std (sub_range iv.1 iv.2 series))) ∧
        row !! (3 * j + 2)%nat
          = Some (float32 (_slope (sub_range iv.1 iv.2 series))).
Proof.
  intros Hnonneg. unfold _transform. cbn zeta.
  destruct (transform_loop X intervals (seq 0 (length intervals))
              (np_empty (3 * length intervals) (length (panel_rows X))))
    as (t & Hrun & Hlen & _ & Hin).
  { intros j Hj. apply elem_of_seq in Hj.
    unfold np_empty. rewrite length_replicate. lia. }
  unfold np_empty in Hlen. rewrite length_replicate in Hlen.
  rewrite Hrun. cbn [rbind]. eexists. split; [done |].
  unfold transpose. split; [by rewrite length_fmap, length_seq |]. split.
  { apply Forall_fmap, Forall_forall. intros i _. simpl.
    by rewrite length_fmap. }
  intros i j series iv Hi Hj.
  assert (Hilt : (i < length (panel_rows X))%nat) by by eapply lookup_lt_Some.
  assert (Hjlt : (j < length intervals)%nat) by by eapply lookup_lt_Some.
  eexists. split.
  { rewrite list_lookup_fmap, lookup_seq_lt by done. done. }
  assert (Hrow : ∀ c kernel,
    feature_rows X intervals j !! c
      = Some (float32 <$> (kernel <$>
                (py_slice (intervals !!! j).1 (intervals !!! j).2
                   <$> panel_rows X))) →
    (c < 3)%nat →
    ((fun row : list num => row !!! (0 + i)%nat) <$> t) !! (3 * j + c)%nat
      = Some (float32 (kernel (sub_range iv.1 iv.2 series)))).
  { intros c kernel Hc Hc3.
    rewrite list_lookup_fmap, Hin, Hc; [| by apply elem_of_seq; lia | done].
    simpl. f_equal. apply list_lookup_total_correct.
    rewrite !list_lookup_fmap, Hi. simpl.
    rewrite (list_lookup_total_correct _ _ _ Hj).
    eapply Forall_lookup_1 in Hnonneg as [Ha Hb]; [| exact Hj].
    by rewrite py_slice_sub_range. }
  split; [| split].
  - rewrite <- (Nat.add_0_r (3 * j)). by apply Hrow; [| lia].
  - by apply Hrow; [| lia].
  - by apply Hrow; [| lia].
Qed.

End TransformProperties.

(** ** More on [_transform] and [_fit_estimator] *)

Lemma for_each_ext {A S} (xs : list A) (f g : A → S → result S) :
  (∀ x s, x ∈ xs → f x s = g x s) →
  ∀ s, for_each xs f s = for_each xs g s.
Proof.
  induction xs as [| x xs IH]; intros Hfg s; [done |].
  cbn [for_each]. rewrite Hfg by (apply elem_of_cons; by left).
  destruct (g x s) as [s' |]; [| done]. cbn [rbind].
  apply IH. intros x' s'' Hx'. apply Hfg, elem_of_cons. by right.
Qed.

(** A window that ends by position [n] does not see what comes after. *)
Lemma py_slice_take {A} (a b : Z) (n : nat) (row : list A) :
  0 ≤ a → 0 ≤ b → b ≤ Z.of_nat n →
  py_slice a b (take n row) = py_slice a b row.
Proof.
  intros Ha Hb Hn. rewrite !py_slice_sub_range by done.
  unfold sub_range. apply list_eq. intros i.
  destruct (decide (i < Z.to_nat (b - a))%nat) as [Hi | Hi].
  - rewrite !lookup_take_lt by done. rewrite !lookup_drop.
    apply lookup_take_lt. lia.
  - by rewrite !lookup_take_ge by lia.
Qed.

Section TransformExtras.
Context {N : Numeric} {Lr : Learner N}.

(** X5.  Every window that [_transform] cuts for an interval of the sampler
    out of a series of the sampled length holds exactly [end - start] points,
    and at least [min_interval] of them. *)
Theorem X5_sampled_windows_hold_end_minus_start_points
    (K m L : Z) (g g' : RandomState) (intervals : list (Z * Z))
    (series : list num) :
  _get_intervals K m L g = Ok (intervals, g') →
  Z.of_nat (length series) = L →
  Forall (fun iv : Z * Z =>
            Z.of_nat (length (py_slice iv.1 iv.2 series)) = iv.2 - iv.1 ∧
            m ≤ iv.2 - iv.1)
         intervals.
Proof.
  intros Hrun Hlen. apply get_intervals_inv in Hrun as (_ & _ & Hall).
  eapply Forall_impl; [exact Hall |].
  intros iv (s & c & Hs & Hc & ->). cbn [fst snd].
  destruct (drawn_interval_in_range m L s c Hs Hc) as (H1 & H2 & H3 & _).
  rewrite py_slice_sub_range by lia. unfold sub_range.
  rewrite length_take, length_drop. lia.
Qed.

(** X6.  No interval makes the slicing or the row assignments of
    [_transform] raise: whatever the bounds are, it returns a matrix of [N]
    rows and [3 * K] columns whose entries are the three statistics of the
    Python slices [series[start:end]], also when a bound is negative or lies
    beyond the series. *)
Theorem X6_transform_never_raises (X : Panel) (intervals : list (Z * Z)) :
  ∃ Xt,
    _transform X intervals = Ok Xt ∧
    length Xt = length (panel_rows X) ∧
    Forall (fun row => length row = (3 * length intervals)%nat) Xt ∧
    ∀ i j series iv,
      panel_rows X !! i = Some series →
      intervals !! j = Some iv →
      ∃ row,
        Xt !! i = Some row ∧
        row !! (3 * j)%nat
          = Some (float32 (np_mean (py_slice iv.1 iv.2 series))) ∧
        row !! (3 * j + 1)%nat
          = Some (float32 (np_std (py_slice iv.1 iv.2 series))) ∧
        row !! (3 * j + 2)%nat
          = Some (float32 (_slope (py_slice iv.1 iv.2 series))).
Proof.
  unfold _transform. cbn zeta.
  destruct (transform_loop X intervals (seq 0 (length intervals))
              (np_empty (3 * length intervals) (length (panel_rows X))))
    as (t & Hrun & Hlen & _ & Hin).
  { intros j Hj. apply elem_of_seq in Hj.
    unfold np_empty. rewrite length_replicate. lia. }
  rewrite Hrun. cbn [rbind]. eexists. split; [done |].
  unfold transpose. split; [by rewrite length_fmap, length_seq |]. split.
  { apply Forall_fmap, Forall_forall. intros i _. simpl.
    rewrite length_fmap, Hlen. unfold np_empty. apply length_replicate. }
  intros i j series iv Hi Hj.
  assert (Hilt : (i < length (panel_rows X))%nat) by by eapply lookup_lt_Some.
  assert (Hjlt : (j < length intervals)%nat) by by eapply lookup_lt_Some.
  eexists. split.
  { rewrite list_lookup_fmap, lookup_seq_lt by done. done. }
  assert (Hentry : ∀ c (kernel : list num → num),
    feature_rows X intervals j !! c
      = Some (float32 <$> (kernel <$>
                (py_slice (intervals !!! j).1 (intervals !!! j).2
                   <$> panel_rows X))) →
    (c < 3)%nat →
    ((fun row : list num => row !!! (0 + i)%nat) <$> t) !! (3 * j + c)%nat
      = Some (float32 (kernel (py_slice iv.1 iv.2 series)))).
  { intros c kernel Hc Hc3.
    rewrite list_lookup_fmap, Hin, Hc; [| by apply elem_of_seq; lia | done].
    simpl. f_equal. apply list_lookup_total_correct.
    rewrite !list_lookup_fmap, Hi. simpl.
    by rewrite (list_lookup_total_correct _ _ _ Hj). }
  split; [| split].
  - rewrite <- (Nat.add_0_r (3 * j)). by apply Hentry; [| lia].
  - by apply Hentry; [| lia].
  - by apply Hentry; [| lia].
Qed.

(** A step of [_transform] reads the panel only through the windows of its
    interval. *)
Lemma transform_step_windows (X X' : Panel) intervals j t :
  py_slice (intervals !!! j).1 (intervals !!! j).2 <$> panel_rows X
    = py_slice (intervals !!! j).1 (intervals !!! j).2 <$> panel_rows X' →
  transform_step X intervals j t = transform_step X' intervals j t.
Proof. intros Hw. unfold transform_step. cbn zeta. by rewrite Hw. Qed.

(** X7.  The last time point of a series is never read: for the intervals of
    the sampler, two panels whose series agree on the first
    [series_length - 1] points are transformed into the same features. *)
Theorem X7_transform_never_reads_the_last_time_point
    (K m L : Z) (g g' : RandomState) (intervals : list (Z * Z))
    (X X' : Panel) :
  _get_intervals K m L g = Ok (intervals, g') →
  take (Z.to_nat (L - 1)) <$> panel_rows X
    = take (Z.to_nat (L - 1)) <$> panel_rows X' →
  _transform X intervals = _transform X' intervals.
Proof.
  intros Hrun Hrows.
  apply get_intervals_inv in Hrun as (_ & _ & Hall).
  assert (Hn : length (panel_rows X) = length (panel_rows X')).
  { apply (f_equal length) in Hrows. by rewrite !length_fmap in Hrows. }
  unfold _transform. cbn zeta. rewrite Hn.
  rewrite (for_each_ext _ (transform_step X intervals)
             (transform_step X' intervals)); [done |].
  intros j t Hj. apply elem_of_seq in Hj.
  apply transform_step_windows.
  destruct (lookup_lt_is_Some_2 intervals j) as [iv Hiv]; [lia |].
  rewrite (list_lookup_total_correct _ _ _ Hiv).
  eapply Forall_lookup_1 in Hall; [| exact Hiv].
  apply sampled_in_range in Hall.
  assert (Hcut : ∀ rows : list (list num),
    py_slice iv.1 iv.2 <$> rows
      = py_slice iv.1 iv.2 <$> (take (Z.to_nat (L - 1)) <$> rows)).
  { intros rows. rewrite <- list_fmap_compose. apply list_fmap_ext.
    intros _ row _. simpl. symmetry. apply py_slice_take; lia. }
  by rewrite (Hcut (panel_rows X)), (Hcut (panel_rows X')), Hrows.
Qed.

(** X8.  [_fit_estimator] always reaches the learner, whatever the
    intervals are: it hands it a matrix of [N] rows and [3 * K] columns
    together with the labels, and returns or raises exactly what
    [estimator.fit] does. *)
Theorem X8_fit_estimator_calls_the_learner
    (estimator : learner) (X : Panel) (y : list Z)
    (intervals : list (Z * Z)) :
  ∃ Xt,
    _transform X intervals = Ok Xt ∧
    length Xt = length (panel_rows X) ∧
    Forall (fun row => length row = (3 * length intervals)%nat) Xt ∧
    _fit_estimator estimator X y intervals = learner_fit estimator Xt y.
Proof.
  unfold _fit_estimator, _transform. cbn zeta.
  destruct (transform_loop X intervals (seq 0 (length intervals))
              (np_empty (3 * length intervals) (length (panel_rows X))))
    as (t & Hrun & Hlen & _ & _).
  { intros j Hj. apply elem_of_seq in Hj.
    unfold np_empty. rewrite length_replicate. lia. }
  rewrite Hrun. cbn [rbind]. eexists. split; [done |].
  unfold transpose. split; [by rewrite length_fmap, length_seq |].
  split; [| done].
  apply Forall_fmap, Forall_forall. intros i _. simpl.
  rewrite length_fmap, Hlen. unfold np_empty. apply length_replicate.
Qed.

End TransformExtras.

(** ** [temporal_curves_] and [_get_fitted_params] *)

Section CurveProperties.
Context {N : Numeric} {Lr : Learner N} {Rt : Runtime tree}.
Context {NL : NumericLaws N}.

Lemma forest_eq (a b : Forest) :
  config_of a = config_of b → curves_of a = curves_of b → a = b.
Proof.
  destruct a, b. unfold config_of, curves_of. cbn.
  intros [= -> -> -> -> -> -> -> -> -> -> -> ->] [= -> -> -> ->]. done.
Qed.

(** Loops keep what their bodies keep. *)
Lemma for_each_m_keeps {S A} (I : S → Prop) (xs : list A)
    (body : A → method S unit) :
  (∀ x s, I s → I (body x s).2) →
  ∀ s, I s → I (for_each_m xs body s).2.
Proof.
  intros Hbody. induction xs as [| x xs IH]; intros s Hs; [done |].
  cbn [for_each_m]. unfold bind. specialize (Hbody x s Hs).
  destruct (body x s) as [[[] | e] s1]; cbn in *; [by apply IH | done].
Qed.

(** Loops whose bodies cannot tell two states apart cannot either. *)
Lemma for_each_m_related {S A} (R : S → S → Prop) (xs : list A)
    (body : A → method S unit) :
  (∀ x s1 s2, R s1 s2 →
     (body x s1).1 = (body x s2).1 ∧ R (body x s1).2 (body x s2).2) →
  ∀ s1 s2, R s1 s2 →
    (for_each_m xs body s1).1 = (for_each_m xs body s2).1 ∧
    R (for_each_m xs body s1).2 (for_each_m xs body s2).2.
Proof.
  intros Hbody. induction xs as [| x xs IH]; intros s1 s2 Hs; [done |].
  cbn [for_each_m]. unfold bind. destruct (Hbody x s1 s2 Hs) as [Ho Hr].
  destruct (body x s1) as [[[] | e1] s1']; destruct (body x s2) as [o2 s2'];
    cbn in *; subst o2; [by apply IH | done].
Qed.

(** [curve_step] changes nothing but the four curves. *)
Lemma curve_step_keeps_config estimator i_int interval (self : Forest) :
  config_of (curve_step estimator i_int interval self).2 = config_of self.
Proof.
  destruct self as [base rs n m j nc l k es ivs cs fitted mc sd sl wc].
  unfold curve_step, iadd, bind, attr, assign, raising, config_of. cbn.
  repeat case_scrutinee; done.
Qed.

(** [curve_step] reads nothing but the series length and the curves. *)
Lemma curve_step_reads_curves estimator i_int interval (s1 s2 : Forest) :
  series_length s1 = series_length s2 → curves_of s1 = curves_of s2 →
  (curve_step estimator i_int interval s1).1
    = (curve_step estimator i_int interval s2).1 ∧
  curves_of (curve_step estimator i_int interval s1).2
    = curves_of (curve_step estimator i_int interval s2).2.
Proof.
  destruct s1 as [base rs n m j nc l k es ivs cs fitted mc sd sl wc].
  destruct s2 as [base' rs' n' m' j' nc' l' k' es' ivs' cs' fitted' mc' sd'
                    sl' wc'].
  unfold curves_of. cbn. intros <- [= <- <- <- <-].
  unfold curve_step, iadd, bind, attr, assign, raising, curves_of. cbn.
  repeat case_scrutinee; done.
Qed.

Lemma curves_loop_keeps_config members (self : Forest) :
  config_of (curves_loop members self).2 = config_of self.
Proof.
  unfold curves_loop.
  apply (for_each_m_keeps (fun s => config_of s = config_of self)); [| done].
  intros [estimator intervals] s Hs.
  apply (for_each_m_keeps (fun s => config_of s = config_of self)); [| done].
  intros [i_int interval] s' Hs'. by rewrite curve_step_keeps_config.
Qed.

Lemma config_series_length (s1 s2 : Forest) :
  config_of s1 = config_of s2 → series_length s1 = series_length s2.
Proof. unfold config_of. by intros [= _ _ _ _ _ _ -> _ _ _ _ _]. Qed.

Lemma curves_loop_reads_curves members (s1 s2 : Forest) :
  series_length s1 = series_length s2 → curves_of s1 = curves_of s2 →
  (curves_loop members s1).1 = (curves_loop members s2).1 ∧
  curves_of (curves_loop members s1).2 = curves_of (curves_loop members s2).2.
Proof.
  intros Hl Hc. unfold curves_loop.
  set (R := fun a b : Forest =>
              series_length a = series_length b ∧ curves_of a = curves_of b).
  assert (Hstep : ∀ estimator (x : nat * (Z * Z)) a b, R a b →
    ((let '(i_int, interval) := x in curve_step estimator i_int interval) a).1
    = ((let '(i_int, interval) := x in
        curve_step estimator i_int interval) b).1 ∧
    R ((let '(i_int, interval) := x in
        curve_step estimator i_int interval) a).2
      ((let '(i_int, interval) := x in
        curve_step estimator i_int interval) b).2).
  { intros estimator [i_int interval] a b [Hab Hcab].
    destruct (curve_step_reads_curves estimator i_int interval a b Hab Hcab)
      as [Ho Hcs].
    split; [done |]. split; [| done].
    pose proof (curve_step_keeps_config estimator i_int interval a) as Ha.
    pose proof (curve_step_keeps_config estimator i_int interval b) as Hb.
    apply config_series_length in Ha, Hb. congruence. }
  destruct (for_each_m_related R members
    (fun '(estimator, intervals) =>
       for_each_m (enumerate intervals)
         (fun '(i_int, interval) => curve_step estimator i_int interval)))
    with (s1 := s1) (s2 := s2) as [Ho [_ Hcs]]; [| done | done].
  intros [estimator intervals] a b Hab.
  by apply (for_each_m_related R (enumerate intervals)
              (fun '(i_int, interval) =>
                 curve_step estimator i_int interval)
              (Hstep estimator)).
Qed.

(** [temporal_curves_]: the four curves are reset, then the loops run over
    the stored members. *)
Lemma temporal_curves_unfold (self : Forest) :
  temporal_curves_ self =
    if series_length self <? 0 then (Raise ValueError, self)
    else
      let z := replicate (Z.to_nat (series_length self)) zero in
      curves_loop (zip (estimators_ self) (intervals_ self))
        (with_curves z z z z self).
Proof.
  destruct self as [base rs n m j nc l k es ivs cs fitted mc sd sl wc].
  unfold temporal_curves_, curves_loop, with_curves, np_zeros, bind, attr,
    assign, raising.
  cbn. by destruct (l <? 0).
Qed.

Lemma with_curves_config a b c d (self : Forest) :
  config_of (with_curves a b c d self) = config_of self.
Proof. by destruct self. Qed.

Lemma with_curves_curves a b c d (self : Forest) :
  curves_of (with_curves a b c d self) = (Some a, Some b, Some c, Some d).
Proof. by destruct self. Qed.

Lemma config_members (s1 s2 : Forest) :
  config_of s1 = config_of s2 →
  series_length s1 = series_length s2 ∧ estimators_ s1 = estimators_ s2 ∧
  intervals_ s1 = intervals_ s2 ∧ classes_ s1 = classes_ s2 ∧
  _is_fitted s1 = _is_fitted s2.
Proof. unfold config_of. by intros [= _ _ _ _ _ _ -> _ -> -> -> ->]. Qed.

(** [temporal_curves_] changes nothing but the four curves. *)
Lemma temporal_curves_keeps_config (self : Forest) :
  config_of (temporal_curves_ self).2 = config_of self.
Proof.
  rewrite temporal_curves_unfold.
  destruct (series_length self <? 0); [done |]. cbn zeta.
  by rewrite curves_loop_keeps_config, with_curves_config.
Qed.

(** [_get_fitted_params] reads three attributes and changes nothing. *)
Lemma get_fitted_params_returns (self : Forest) :
  _get_fitted_params self =
    (Ok (mkFittedParams (classes_ self) (intervals_ self) (estimators_ self)),
     self).
Proof. reflexivity. Qed.

(** On an object that no call of [_fit] has completed, there is no fitted
    tree and the series length is that of the last panel seen, or [0]. *)
Lemma unfitted_inv (self : Forest) :
  unfitted self →
  _is_fitted self = false ∧ estimators_ self = [] ∧ 0 ≤ series_length self.
Proof.
  induction 1 as [base m n j seed
                 | global sched X y self e self' _ IH Hfit
                 | self r self' _ IH Hcall
                 | self r self' _ IH Hcall].
  - done.
  - destruct IH as (Hf & He & _).
    rewrite fit_unfold in Hfit. cbn zeta in Hfit.
    pose proof (prepared_attributes X y self) as Hp. cbn zeta in Hp.
    destruct Hp as (_ & _ & _ & _ & E1 & _ & F1 & L1 & _).
    destruct (check_random_state _ _) as [rng0 |].
    + destruct (sample_members _ _ _ _ _) as [[intervals rng] |].
      * destruct (Parallel _ _ _) as [fitted |]; [done |].
        injection Hfit as _ <-. cbn. rewrite F1, E1, L1. split; [done |].
        split; [done | lia].
      * injection Hfit as _ <-. rewrite F1, E1, L1. split; [done |].
        split; [done | lia].
    + injection Hfit as _ <-. destruct self. cbn in *. split; [done |].
      split; [done | lia].
  - rewrite get_fitted_params_returns in Hcall. by injection Hcall as _ <-.
  - pose proof (temporal_curves_keeps_config self) as Hc.
    rewrite Hcall in Hc. cbn in Hc.
    apply config_members in Hc as (-> & -> & _ & _ & ->). done.
Qed.

(** C4, amended.  On a forest on which no call of [_fit] has returned, both
    calls return, neither raises [NotFittedError]: [_get_fitted_params]
    returns the stored classes and intervals and no estimator, and leaves the
    object as it is; [temporal_curves_] sets the four curves to zeros of the
    stored series length and leaves every other attribute as it is. *)
Theorem C4_unfitted_calls_return (self : Forest) :
  unfitted self →
  _get_fitted_params self =
    (Ok (mkFittedParams (classes_ self) (intervals_ self) []), self) ∧
  (let z := replicate (Z.to_nat (series_length self)) zero in
   temporal_curves_ self = (Ok tt, with_curves z z z z self)) ∧
  config_of (temporal_curves_ self).2 = config_of self.
Proof.
  intros Hu. apply unfitted_inv in Hu as (_ & He & Hl).
  split; [| split].
  - by rewrite get_fitted_params_returns, He.
  - cbn zeta. rewrite temporal_curves_unfold.
    destruct (Z.ltb_spec (series_length self) 0); [lia |].
    by rewrite He.
  - apply temporal_curves_keeps_config.
Qed.

(** C8.  Running the curve computation on the object it has left gives the
    same outcome and leaves the same object.  The outcome and the curves are
    determined by the stored series length, estimators and intervals: any
    object that stores the same ones gets the same outcome and the same
    curves, whatever else it holds and whatever panel it was fitted on. *)
Theorem C8_temporal_curves_idempotent (self : Forest) :
  let first := temporal_curves_ self in
  temporal_curves_ first.2 = first ∧
  ∀ other : Forest,
    series_length other = series_length self →
    estimators_ other = estimators_ self →
    intervals_ other = intervals_ self →
    (temporal_curves_ other).1 = first.1 ∧
    (0 ≤ series_length self →
     curves_of (temporal_curves_ other).2 = curves_of first.2).
Proof.
  cbn zeta. split.
  - pose proof (temporal_curves_keeps_config self) as Hcfg.
    rewrite (temporal_curves_unfold (temporal_curves_ self).2).
    destruct (config_members _ _ Hcfg) as (Hl & He & Hi & _).
    rewrite Hl, He, Hi. cbn zeta.
    rewrite (temporal_curves_unfold self) in *.
    destruct (series_length self <? 0); [done |]. cbn zeta in *.
    f_equal. apply forest_eq.
    + by rewrite !with_curves_config.
    + by rewrite !with_curves_curves.
  - intros other Hl He Hi.
    rewrite (temporal_curves_unfold other), (temporal_curves_unfold self).
    rewrite Hl, He, Hi.
    destruct (Z.ltb_spec (series_length self) 0) as [Hneg | Hpos];
      [split; [done | lia] |].
    cbn zeta.
    set (z := replicate (Z.to_nat (series_length self)) zero).
    destruct (curves_loop_reads_curves
                (zip (estimators_ self) (intervals_ self))
                (with_curves z z z z other) (with_curves z z z z self))
      as [Ho Hc]; [| by rewrite !with_curves_curves | done].
    transitivity (series_length other);
      [| transitivity (series_length self); [done |]].
    + by apply config_series_length, with_curves_config.
    + symmetry. by apply config_series_length, with_curves_config.
Qed.

(** *** The curves, position by position *)

Lemma range2_elem (a b i : Z) : i ∈ range2 a b ↔ a ≤ i < b.
Proof.
  unfold range2. rewrite list_elem_of_fmap. split.
  - intros (k & -> & Hk). apply elem_of_seq in Hk. lia.
  - intros Hi. exists (Z.to_nat (i - a)). split; [lia |].
    apply elem_of_seq. lia.
Qed.

(** [np.put] with indices inside the array: the mask gains exactly the
    indices. *)
Lemma np_put_in_range (ind : list Z) : ∀ mask,
  (∀ i, i ∈ ind → 0 ≤ i < Z.of_nat (length mask)) →
  ∃ mask', np_put mask ind = Ok mask' ∧
    length mask' = length mask ∧
    ∀ t b, mask !! t = Some b →
      mask' !! t = Some (b || bool_decide (Z.of_nat t ∈ ind)).
Proof.
  unfold np_put.
  induction ind as [| i ind IH]; intros mask Hind.
  - exists mask. split; [done |]. split; [done |]. intros t b Ht.
    rewrite bool_decide_eq_false_2 by apply not_elem_of_nil.
    by rewrite orb_false_r.
  - assert (Hi : 0 ≤ i < Z.of_nat (length mask))
      by (apply Hind, elem_of_cons; by left).
    destruct (IH (<[Z.to_nat i := true]> mask))
      as (mask' & Hrun & Hlen & Hget).
    { intros i' Hi'. rewrite length_insert. apply Hind, elem_of_cons.
      by right. }
    exists mask'. cbn [for_each].
    destruct (Z.ltb_spec i (- Z.of_nat (length mask))); [lia |].
    destruct (Z.leb_spec (Z.of_nat (length mask)) i); [lia |].
    destruct (Z.ltb_spec i 0); [lia |]. cbn [orb rbind].
    split; [exact Hrun |]. rewrite length_insert in Hlen.
    split; [done |]. intros t b Ht.
    destruct (decide (t = Z.to_nat i)) as [-> | Hne].
    + rewrite (Hget (Z.to_nat i) true).
      * rewrite (bool_decide_eq_true_2 (Z.of_nat (Z.to_nat i) ∈ i :: ind)).
        -- by rewrite orb_true_r.
        -- apply elem_of_cons. left. lia.
      * apply list_lookup_insert_eq. lia.
    + rewrite (Hget t b) by by rewrite list_lookup_insert_ne.
      f_equal. f_equal. apply bool_decide_ext. rewrite elem_of_cons.
      split; [tauto |]. intros [Heq | Hin]; [lia | done].
Qed.

(** The mask of an interval that lies inside the series. *)
Lemma interval_mask_covers (l : nat) (iv : Z * Z) :
  0 ≤ iv.1 → iv.2 ≤ Z.of_nat l →
  ∃ mask,
    np_put (replicate l false) (range2 iv.1 iv.2) = Ok mask ∧
    length mask = l ∧
    ∀ t, (t < l)%nat → mask !! t = Some (covers iv t).
Proof.
  intros Ha Hb.
  destruct (np_put_in_range (range2 iv.1 iv.2) (replicate l false))
    as (mask & Hrun & Hlen & Hget).
  { intros i Hi. apply range2_elem in Hi. rewrite length_replicate. lia. }
  rewrite length_replicate in Hlen.
  exists mask. split; [done |]. split; [done |]. intros t Ht.
  rewrite (Hget t false) by by apply lookup_replicate_2.
  cbn [orb]. f_equal. unfold covers. apply bool_decide_ext, range2_elem.
Qed.

Lemma bump_length iv v curve : length (bump iv v curve) = length curve.
Proof. unfold bump. apply length_imap. Qed.

Lemma bump_lookup iv v curve t :
  bump iv v curve !! t
    = (fun x => if covers iv t then add x v else x) <$> curve !! t.
Proof. unfold bump. apply list_lookup_imap. Qed.

(** [curve += np.where(mask, v, 0)] is [bump]: where the mask is unset the
    curve gets [+ 0]. *)
Lemma iadd_where_bump iv v (curve : list num) (mask : list bool) :
  length mask = length curve →
  (∀ t, (t < length curve)%nat → mask !! t = Some (covers iv t)) →
  zip_with add curve (np_where mask v) = bump iv v curve.
Proof.
  intros Hlen Hmask. apply list_eq. intros t.
  rewrite bump_lookup, lookup_zip_with. unfold np_where.
  rewrite list_lookup_fmap.
  destruct (curve !! t) as [x |] eqn:Hx; [| done]. cbn.
  rewrite Hmask by by eapply lookup_lt_Some. cbn.
  destruct (covers iv t); [done |]. by rewrite add_zero_r.
Qed.

Lemma getitem_in_range {A} `{Inhabited A} (a : list A) (i : nat) :
  (i < length a)%nat → getitem a i = Ok (a !!! i).
Proof.
  intros Hi. unfold getitem.
  destruct (lookup_lt_is_Some_2 a i Hi) as [x Hx].
  by rewrite Hx, (list_lookup_total_correct _ _ _ Hx).
Qed.

(** Running a method step by step. *)
Lemma bind_attr {S A B} (get : S → A) (k : A → method S B) (s : S) :
  bind (attr get) k s = k (get s) s.
Proof. reflexivity. Qed.

Lemma bind_raising_ok {S A B} (a : A) (k : A → method S B) (s : S) :
  bind (raising (Ok a)) k s = k a s.
Proof. reflexivity. Qed.

Lemma bind_returns {S A B} (m : method S A) (k : A → method S B) s a s' :
  m s = (Ok a, s') → bind m k s = k a s'.
Proof. intros H. unfold bind. by rewrite H. Qed.

Lemma np_zeros_nat {A} (z : A) (l : nat) :
  np_zeros z (Z.of_nat l) = Ok (replicate l z).
Proof.
  unfold np_zeros. destruct (Z.ltb_spec (Z.of_nat l) 0); [lia |].
  by rewrite Nat2Z.id.
Qed.

Lemma with_curves_series_length a b c d (self : Forest) :
  series_length (with_curves a b c d self) = series_length self.
Proof. by destruct self. Qed.

Lemma iadd_wts a mean stdev slope wts (base : Forest) :
  iadd n_intervals_wts_curve_ set_n_intervals_wts_curve_ a
    (with_curves mean stdev slope wts base)
  = (Ok tt, with_curves mean stdev slope (zip_with add wts a) base).
Proof. by destruct base. Qed.

Lemma iadd_mean a mean stdev slope wts (base : Forest) :
  iadd mean_curve_ set_mean_curve_ a (with_curves mean stdev slope wts base)
  = (Ok tt, with_curves (zip_with add mean a) stdev slope wts base).
Proof. by destruct base. Qed.

Lemma iadd_stdev a mean stdev slope wts (base : Forest) :
  iadd stdev_curve_ set_stdev_curve_ a (with_curves mean stdev slope wts base)
  = (Ok tt, with_curves mean (zip_with add stdev a) slope wts base).
Proof. by destruct base. Qed.

Lemma iadd_slope a mean stdev slope wts (base : Forest) :
  iadd slope_curve_ set_slope_curve_ a (with_curves mean stdev slope wts base)
  = (Ok tt, with_curves mean stdev (zip_with add slope a) wts base).
Proof. by destruct base. Qed.

(** One iteration that does not raise. *)
Lemma curve_step_returns (l : nat) estimator j iv
    (mean stdev slope wts : list num) (base : Forest) :
  series_length base = Z.of_nat l →
  length mean = l → length stdev = l → length slope = l → length wts = l →
  step_ok l estimator (j, iv) →
  curve_step estimator j iv (with_curves mean stdev slope wts base) =
    (Ok tt,
     with_curves (bump iv (importance 0 estimator j) mean)
       (bump iv (importance 1 estimator j) stdev)
       (bump iv (importance 2 estimator j) slope)
       (bump iv one wts) base).
Proof.
  intros Hl Hm Hsd Hsl Hw (Ha & Hb & Himp). cbn [fst snd] in Ha, Hb, Himp.
  destruct (interval_mask_covers l iv Ha Hb) as (mask & Hput & Hlen & Hmask).
  unfold curve_step, importance.
  rewrite bind_attr, with_curves_series_length, Hl, np_zeros_nat.
  rewrite bind_raising_ok, Hput, bind_raising_ok.
  rewrite (bind_returns _ _ _ _ _ (iadd_wts _ _ _ _ _ _)).
  rewrite getitem_in_range by lia. rewrite bind_raising_ok.
  rewrite (bind_returns _ _ _ _ _ (iadd_mean _ _ _ _ _ _)).
  rewrite getitem_in_range by lia. rewrite bind_raising_ok.
  rewrite (bind_returns _ _ _ _ _ (iadd_stdev _ _ _ _ _ _)).
  rewrite getitem_in_range by lia. rewrite bind_raising_ok.
  rewrite iadd_slope.
  rewrite !(iadd_where_bump iv)
    by (intros; try apply Hmask; congruence).
  by rewrite Nat.add_0_r.
Qed.

(** The inner loop over the intervals of one member. *)
Lemma member_loop_returns (l : nat) estimator (base : Forest)
    (pairs : list (nat * (Z * Z))) : ∀ mean stdev slope wts,
  series_length base = Z.of_nat l →
  length mean = l → length stdev = l → length slope = l → length wts = l →
  Forall (step_ok l estimator) pairs →
  for_each_m pairs
    (fun '(i_int, interval) => curve_step estimator i_int interval)
    (with_curves mean stdev slope wts base) =
    (Ok tt,
     with_curves
       (foldl (fun c '(j, iv) => bump iv (importance 0 estimator j) c)
          mean pairs)
       (foldl (fun c '(j, iv) => bump iv (importance 1 estimator j) c)
          stdev pairs)
       (foldl (fun c '(j, iv) => bump iv (importance 2 estimator j) c)
          slope pairs)
       (foldl (fun c '(j, iv) => bump iv one c) wts pairs)
       base).
Proof.
  induction pairs as [| [j iv] pairs IH];
    intros mean stdev slope wts Hl Hm Hsd Hsl Hw Hok; [done |].
  apply Forall_cons in Hok as [Hjok Hok].
  cbn [for_each_m foldl]. unfold bind.
  rewrite (curve_step_returns l) by done.
  apply IH; try done; by rewrite bump_length.
Qed.

Lemma foldl_bump_length (score : nat → num) (pairs : list (nat * (Z * Z))) :
  ∀ curve,
    length (foldl (fun c '(j, iv) => bump iv (score j) c) curve pairs)
      = length curve.
Proof.
  induction pairs as [| [j iv] pairs IH]; intros curve; [done |].
  cbn [foldl]. by rewrite IH, bump_length.
Qed.

(** The two loops over members that do not raise. *)
Lemma curves_loop_returns (l : nat) (base : Forest)
    (members : list (tree * list (Z * Z))) : ∀ mean stdev slope wts,
  series_length base = Z.of_nat l →
  length mean = l → length stdev = l → length slope = l → length wts = l →
  Forall (fun member => Forall (step_ok l member.1) (enumerate member.2))
    members →
  curves_loop members (with_curves mean stdev slope wts base) =
    (Ok tt,
     with_curves (curve_after (importance 0) members mean)
       (curve_after (importance 1) members stdev)
       (curve_after (importance 2) members slope)
       (curve_after (fun _ _ => one) members wts) base).
Proof.
  unfold curves_loop.
  induction members as [| [estimator intervals] members IH];
    intros mean stdev slope wts Hl Hm Hsd Hsl Hw Hok; [done |].
  apply Forall_cons in Hok as [Hmok Hok]. cbn in Hmok.
  cbn [for_each_m]. unfold bind at 1.
  rewrite (member_loop_returns l) by done.
  unfold curve_after. cbn [foldl]. unfold curve_after_member at 2 4 6 8.
  cbn [fst snd].
  apply IH; try done;
    by rewrite (foldl_bump_length (fun j => _ j)) ||
       by rewrite (foldl_bump_length (fun _ => one)).
Qed.

(** A position of a curve after the inner loop: the scores of the covering
    intervals have been added, in order. *)
Lemma foldl_bump_lookup (score : nat → num) (t : nat)
    (pairs : list (nat * (Z * Z))) : ∀ curve x,
  curve !! t = Some x →
  foldl (fun c '(j, iv) => bump iv (score j) c) curve pairs !! t
    = Some (foldl add x
              (omap (fun '(j, iv) =>
                       if covers iv t then Some (score j) else None)
                    pairs)).
Proof.
  induction pairs as [| [j iv] pairs IH]; intros curve x Hx; [done |].
  cbn [foldl omap list_omap].
  rewrite (IH _ (if covers iv t then add x (score j) else x)).
  - by destruct (covers iv t).
  - by rewrite bump_lookup, Hx.
Qed.

Lemma curve_after_lookup (score : tree → nat → num) (t : nat)
    (members : list (tree * list (Z * Z))) : ∀ curve x,
  curve !! t = Some x →
  curve_after score members curve !! t
    = Some (foldl add x (contributions score members t)).
Proof.
  unfold curve_after, contributions.
  induction members as [| [estimator intervals] members IH];
    intros curve x Hx; [done |].
  cbn [foldl flat_map]. rewrite foldl_app.
  apply IH. unfold curve_after_member. cbn [fst snd].
  by apply (foldl_bump_lookup (score estimator)).
Qed.

Lemma curve_after_length (score : tree → nat → num)
    (members : list (tree * list (Z * Z))) : ∀ curve,
  length (curve_after score members curve) = length curve.
Proof.
  unfold curve_after.
  induction members as [| [estimator intervals] members IH]; intros curve;
    [done |].
  cbn [foldl]. rewrite IH. unfold curve_after_member. cbn [fst snd].
  apply (foldl_bump_length (score estimator)).
Qed.

(** The curves of any object whose stored intervals lie inside the series
    and whose trees have an importance for every feature column. *)
Lemma temporal_curves_returns (l : nat) (self : Forest) :
  series_length self = Z.of_nat l →
  Forall (fun member => Forall (step_ok l member.1) (enumerate member.2))
    (zip (estimators_ self) (intervals_ self)) →
  let members := zip (estimators_ self) (intervals_ self) in
  let z := replicate l zero in
  temporal_curves_ self =
    (Ok tt,
     with_curves (curve_after (importance 0) members z)
       (curve_after (importance 1) members z)
       (curve_after (importance 2) members z)
       (curve_after (fun _ _ => one) members z) self).
Proof.
  intros Hl Hok. cbn zeta. rewrite temporal_curves_unfold, Hl.
  destruct (Z.ltb_spec (Z.of_nat l) 0); [lia |]. cbn zeta.
  rewrite Nat2Z.id.
  rewrite (curves_loop_returns l self); try done;
    by rewrite length_replicate.
Qed.

Lemma Forall_zip_Forall2 {A B} (P : A → B → Prop) (Q : B → Prop) l k :
  Forall2 P l k → Forall Q k →
  Forall (fun ab : A * B => P ab.1 ab.2 ∧ Q ab.2) (zip l k).
Proof.
  induction 1 as [| a b l k Hab _ IH]; intros Hk; [constructor |].
  apply Forall_cons in Hk as [Hb Hk]. constructor; [done | by apply IH].
Qed.

(** C7.  After a call of [_fit] that has returned, and with trees that have
    an importance for each of the [3 * K] feature columns, the curve
    computation returns and leaves four curves of the series length.  At each
    time index [t] the coverage curve is the sum of a [1] for every interval
    of every member that covers [t], and the mean, standard-deviation and
    slope curves are the sums of the tree's importances at the offsets
    [3 * j], [3 * j + 1] and [3 * j + 2] of those intervals [j].  The sums
    are accumulated from [0] in the order of the loops and stored as they
    are: nothing divides or rescales them. *)
Theorem C7_curves_are_raw_sums
    (global : RandomState) (sched : schedule) (X : Panel) (y : list Z)
    (self0 self : Forest) :
  _fit global sched X y self0 = (Ok tt, self) →
  Forall2 (fun estimator (intervals : list (Z * Z)) =>
             (3 * length intervals
              ≤ length (feature_importances_ estimator))%nat)
          (estimators_ self) (intervals_ self) →
  let L := panel_length X in
  let members := zip (estimators_ self) (intervals_ self) in
  ∃ mean stdev slope wts,
    temporal_curves_ self = (Ok tt, with_curves mean stdev slope wts self) ∧
    length mean = L ∧ length stdev = L ∧ length slope = L ∧
    length wts = L ∧
    ∀ t, (t < L)%nat →
      wts !! t = Some (raw_sum (contributions (fun _ _ => one) members t)) ∧
      mean !! t = Some (raw_sum (contributions (importance 0) members t)) ∧
      stdev !! t = Some (raw_sum (contributions (importance 1) members t)) ∧
      slope !! t = Some (raw_sum (contributions (importance 2) members t)).
Proof.
  intros Hfit Himp. cbn zeta.
  pose proof Hfit as Hinv.
  apply fit_returns_inv in Hinv
    as (rng0 & ivs & rng & fitted & _ & Hsam & _ & Hself).
  cbn zeta in Hsam.
  pose proof (prepared_attributes X y self0) as Hp. cbn zeta in Hp.
  destruct Hp as (_ & _ & _ & _ & _ & _ & _ & L1 & _ & _ & _).
  apply sample_members_inv in Hsam as (_ & Hall).
  assert (Hl : series_length self = Z.of_nat (panel_length X))
    by (subst self; exact L1).
  assert (Hivs : intervals_ self = ivs) by by subst self.
  rewrite Hivs in *. rewrite L1 in Hall. clear Hself.
  assert (Hok : Forall
    (fun member => Forall (step_ok (panel_length X) member.1)
                     (enumerate member.2))
    (zip (estimators_ self) ivs)).
  { eapply Forall_impl;
      [exact (Forall_zip_Forall2 _ _ _ _ Himp Hall) |].
    intros [estimator intervals]. cbn. intros (Hlen & _ & Hsampled).
    apply Forall_forall. intros [j iv] Hin.
    apply elem_of_lookup_imap_1 in Hin as (j' & iv' & [= -> ->] & Hj).
    eapply Forall_lookup_1 in Hsampled; [| exact Hj].
    apply sampled_in_range in Hsampled.
    apply lookup_lt_Some in Hj.
    unfold step_ok. cbn. repeat split; lia. }
  rewrite (temporal_curves_returns (panel_length X)) by by rewrite ?Hivs.
  rewrite Hivs.
  do 4 eexists. split; [done |].
  rewrite !curve_after_length, length_replicate.
  repeat split; try done;
    unfold raw_sum; apply curve_after_lookup; by apply lookup_replicate_2.
Qed.

End CurveProperties.

(** ** More on [_fit] *)

Lemma for_each_app {A S} (xs ys : list A) (body : A → S → result S) (s : S) :
  for_each (xs ++ ys) body s
    = let? s' := for_each xs body s in for_each ys body s'.
Proof.
  revert s. induction xs as [| x xs IH]; intros s; [done |].
  cbn [app for_each]. destruct (body x s) as [s' |]; [| done].
  cbn [rbind]. apply IH.
Qed.

(** The sampler raises nothing but [ValueError]. *)
Lemma get_intervals_raises_ValueError k m l g e :
  _get_intervals k m l g = Raise e → e = ValueError.
Proof.
  unfold _get_intervals, np_zeros_pairs.
  destruct (k <? 0); cbn [rbind]; [by intros [= <-] |].
  generalize (replicate (Z.to_nat k) (0, 0)). generalize (range k).
  intros js. revert g.
  induction js as [| j js IH]; intros g intervals Hrun; [done |].
  cbn [for_each] in Hrun.
  destruct (interval_step m l j (intervals, g)) as [[iv1 g1] |] eqn:Hstep;
    cbn [rbind] in Hrun.
  - by eapply IH.
  - injection Hrun as <-. unfold interval_step, randint in Hstep.
    destruct (l - m <=? 0); cbn [rbind] in Hstep; [by injection Hstep |].
    destruct (_ <=? 0); cbn [rbind] in Hstep; [by injection Hstep | done].
Qed.

Lemma sample_members_loop_raises k m l e (js : list nat) : ∀ acc g,
  for_each js
    (fun _ '(acc, rng) =>
       let? (intervals, rng) := _get_intervals k m l rng in
       Ok (acc ++ [intervals], rng))
    (acc, g) = Raise e →
  e = ValueError.
Proof.
  induction js as [| j js IH]; intros acc g Hrun; [done |].
  cbn [for_each] in Hrun.
  destruct (_get_intervals k m l g) as [[ivs g1] |] eqn:Hget;
    cbn [rbind] in Hrun.
  - by eapply IH.
  - injection Hrun as <-. by eapply get_intervals_raises_ValueError.
Qed.

Lemma sample_members_raises_ValueError n k m l g e :
  sample_members n k m l g = Raise e → e = ValueError.
Proof. apply sample_members_loop_raises. Qed.

(** The members' intervals are drawn one member after the other: fewer
    members get the first interval sets of more members. *)
Lemma sample_members_prefix n n' k m l g out g' :
  0 ≤ n' ≤ n →
  sample_members n k m l g = Ok (out, g') →
  ∃ g1, sample_members n' k m l g = Ok (take (Z.to_nat n') out, g1).
Proof.
  intros Hn. unfold sample_members, range.
  replace (Z.to_nat n) with (Z.to_nat n' + (Z.to_nat n - Z.to_nat n'))%nat
    by lia.
  rewrite seq_app, for_each_app.
  destruct (for_each (seq 0 (Z.to_nat n')) _ _) as [[acc1 g1] |] eqn:Hfirst;
    cbn [rbind]; [| done].
  intros Hrest. exists g1. do 2 f_equal.
  apply sample_members_loop_inv in Hfirst as (new1 & -> & Hlen1 & _).
  apply sample_members_loop_inv in Hrest as (new2 & -> & _ & _).
  rewrite length_seq in Hlen1. simpl.
  by rewrite take_app_length' by done.
Qed.

Section FitExtras.
Context {N : Numeric} {Lr : Learner N} {Rt : Runtime tree}.
Context {RL : RuntimeLaws Rt}.

(** X9.  Growing the ensemble keeps the members it had: with the same
    integer seed, minimum interval length, panel and labels, a forest of
    fewer members draws, member by member, the interval sets that the larger
    forest draws for its first members. *)
Theorem X9_smaller_forest_draws_a_prefix
    (global1 global2 : RandomState) (sched1 sched2 : schedule)
    (X : Panel) (y : list Z) (self1 self2 self1' : Forest) (seed : Z) :
  random_state self1 = RSInt seed →
  random_state self2 = RSInt seed →
  min_interval self1 = min_interval self2 →
  0 ≤ n_estimators self2 ≤ n_estimators self1 →
  _fit global1 sched1 X y self1 = (Ok tt, self1') →
  intervals_ (_fit global2 sched2 X y self2).2
    = take (Z.to_nat (n_estimators self2)) (intervals_ self1').
Proof.
  intros Hs1 Hs2 Hm Hn Hfit1.
  apply fit_returns_inv in Hfit1
    as (rng0 & ivs & rng & fitted & Hseed & Hsam & _ & ->).
  cbn zeta in Hsam. rewrite fit_unfold. cbn zeta.
  pose proof (prepared_attributes X y self1) as Hp1. cbn zeta in Hp1.
  pose proof (prepared_attributes X y self2) as Hp2. cbn zeta in Hp2.
  destruct Hp1 as (_ & _ & N1 & _ & _ & _ & _ & L1 & _ & K1 & M1).
  destruct Hp2 as (_ & _ & N2 & _ & _ & _ & _ & L2 & _ & K2 & M2).
  rewrite Hs1, (check_random_state_seeded _ global2) in Hseed.
  rewrite Hs2, Hseed.
  rewrite N2, K2, M2, L2. rewrite N1, K1, M1, L1 in Hsam.
  rewrite <- Hm.
  destruct (sample_members_prefix _ (n_estimators self2) _ _ _ _ _ _ Hn Hsam)
    as [g1 Hpre].
  rewrite Hpre.
  by destruct (Parallel _ _ _) as [fitted2 |].
Qed.

Lemma prepared_curves (X : Panel) y (self : Forest) :
  curves_of (prepared X y self) = curves_of self.
Proof.
  destruct self as [base rs n m j nc l k es ivs cs fitted mc sd sl wc].
  unfold prepared. cbn. by destruct (Z.of_nat (panel_length X) <? m).
Qed.

Lemma prepared_n_classes (X : Panel) y (self : Forest) :
  n_classes (prepared X y self) = Z.of_nat (length (np_unique y)).
Proof.
  destruct self as [base rs n m j nc l k es ivs cs fitted mc sd sl wc].
  unfold prepared. cbn. by destruct (Z.of_nat (panel_length X) <? m).
Qed.

(** X10.  A call of [_fit] that raises does not bring the object back to
    what it was.  Wherever the call stopped, the series length is that of
    the new panel, while the fitted flag, the estimators and the curves are
    those the object had before: a forest that was fitted stays marked
    fitted with its old trees.  The other attributes tell where it stopped:
    - the seed was refused (a [ValueError]): the classes, the interval
      count, [min_interval] and [intervals_] are as they were;
    - the seed was accepted: the classes are those of the new labels, the
      interval count that of the new series length, [min_interval] is
      clamped to the series length, and
      - the sampler raised (a [ValueError]): [intervals_] is as it was;
      - the sampler returned and the job runner raised: [intervals_] holds
        the interval sets that the sampler has just returned. *)
Theorem X10_failed_fit_leaves_a_mixed_object
    (global : RandomState) (sched : schedule) (X : Panel) (y : list Z)
    (self self' : Forest) (e : exn) :
  _fit global sched X y self = (Raise e, self') →
  let L := Z.of_nat (panel_length X) in
  let K := if Z.sqrt L =? 0 then 1 else Z.sqrt L in
  let m := if L <? min_interval self then L else min_interval self in
  (_is_fitted self' = _is_fitted self ∧
   estimators_ self' = estimators_ self ∧
   curves_of self' = curves_of self ∧
   series_length self' = L) ∧
  ((check_random_state global (random_state self) = Raise e ∧
    e = ValueError ∧
    n_classes self' = n_classes self ∧ classes_ self' = classes_ self ∧
    n_intervals self' = n_intervals self ∧
    min_interval self' = min_interval self ∧
    intervals_ self' = intervals_ self)
   ∨
   (∃ rng,
      check_random_state global (random_state self) = Ok rng ∧
      (n_classes self' = Z.of_nat (length (np_unique y)) ∧
       classes_ self' = np_unique y ∧
       n_intervals self' = K ∧ min_interval self' = m) ∧
      ((sample_members (n_estimators self) K m L rng = Raise e ∧
        e = ValueError ∧
        intervals_ self' = intervals_ self)
       ∨
       (∃ ivs rng',
          sample_members (n_estimators self) K m L rng = Ok (ivs, rng') ∧
          Parallel (check_n_jobs (n_jobs self)) sched
            (member_tasks (_estimator self) X y ivs (n_estimators self)
               rng').1 = Raise e ∧
          intervals_ self' = ivs)))).
Proof.
  rewrite fit_unfold. cbn zeta.
  pose proof (prepared_attributes X y self) as Hp. cbn zeta in Hp.
  destruct Hp as (_ & _ & N1 & _ & E1 & I1 & F1 & L1 & C1 & K1 & M1).
  pose proof (prepared_curves X y self) as Hc.
  pose proof (prepared_n_classes X y self) as Hnc.
  destruct (check_random_state _ _) as [rng0 |] eqn:Hseed.
  - rewrite N1, K1, M1, L1.
    destruct (sample_members _ _ _ _ _) as [[intervals rng] |] eqn:Hsam.
    + destruct (Parallel _ _ _) as [fitted |] eqn:Hpar; [done |].
      intros [= <- <-]. cbn. split; [done |]. right. exists rng0.
      split; [done |]. split; [done |]. right. by exists intervals, rng.
    + intros [= <- <-]. split; [done |]. right. exists rng0.
      split; [done |]. split; [done |]. left.
      split; [done |]. split; [| done].
      by eapply sample_members_raises_ValueError.
  - intros [= <- <-]. split; [by destruct self |]. left.
    split; [done |]. split; [by eapply check_random_state_raises |].
    by destruct self.
Qed.

(** X11.  An ensemble size of [0] or less is not rejected.  Once the seed is
    accepted no interval is drawn, so the call cannot fail in the sampler
    even when the series is shorter than the minimum interval: [intervals_]
    is left empty, the only exception the call can raise is the one the job
    runner raises on no task, and when the job runner returns the forest is
    marked fitted with no tree.  A refused seed raises [ValueError] before
    that, as it does for any ensemble size, and leaves [intervals_] as it
    was. *)
Theorem X11_empty_ensemble_is_accepted
    (global : RandomState) (sched : schedule) (X : Panel) (y : list Z)
    (self : Forest) :
  n_estimators self ≤ 0 →
  let after := _fit global sched X y self in
  (∀ rng, check_random_state global (random_state self) = Ok rng →
     intervals_ after.2 = [] ∧
     (after.1 = Ok tt →
      estimators_ after.2 = [] ∧ _is_fitted after.2 = true) ∧
     (∀ e, after.1 = Raise e →
           Parallel (check_n_jobs (n_jobs self)) sched [] = Raise e)) ∧
  (∀ e, check_random_state global (random_state self) = Raise e →
     after.1 = Raise ValueError ∧ intervals_ after.2 = intervals_ self).
Proof.
  intros Hn. cbn zeta. rewrite fit_unfold. cbn zeta.
  pose proof (prepared_attributes X y self) as Hp. cbn zeta in Hp.
  destruct Hp as (_ & _ & N1 & _).
  split.
  - intros rng0 ->.
    unfold sample_members, member_tasks, range. rewrite N1.
    replace (Z.to_nat (n_estimators self)) with 0%nat by lia.
    cbn [seq for_each foldl fst].
    destruct (Parallel _ _ _) as [fitted |] eqn:Hpar; cbn.
    + split; [done |]. split; [| done]. intros _. split; [| done].
      apply Parallel_ordered in Hpar. symmetry in Hpar.
      by apply fmap_nil_inv in Hpar.
    + split; [done |]. split; [done |]. by intros e0 [= <-].
  - intros e Hseed. rewrite Hseed. cbn [fst snd].
    apply check_random_state_raises in Hseed as ->. by destruct self.
Qed.

(** On an object that already has the attributes [_fit] sets before it
    draws, setting them again changes nothing. *)
Lemma prepared_fixed_point (X : Panel) y (s : Forest) :
  let l := Z.of_nat (panel_length X) in
  series_length s = l →
  n_classes s = Z.of_nat (length (np_unique y)) →
  classes_ s = np_unique y →
  n_intervals s = (if Z.sqrt l =? 0 then 1 else Z.sqrt l) →
  min_interval s ≤ l →
  prepared X y s = s.
Proof.
  destruct s as [base rs n m j nc l k es ivs cs fitted mc sd sl wc].
  cbn. intros -> -> -> -> Hm. unfold prepared. cbn.
  by destruct (Z.ltb_spec (Z.of_nat (panel_length X)) m); [lia |].
Qed.

Lemma prepared_prepared (X : Panel) y (self : Forest) :
  let p := prepared X y self in
  let l := Z.of_nat (panel_length X) in
  series_length p = l ∧
  n_classes p = Z.of_nat (length (np_unique y)) ∧
  classes_ p = np_unique y ∧
  n_intervals p = (if Z.sqrt l =? 0 then 1 else Z.sqrt l) ∧
  min_interval p ≤ l.
Proof.
  destruct self as [base rs n m j nc l k es ivs cs fitted mc sd sl wc].
  unfold prepared. cbn.
  destruct (Z.ltb_spec (Z.of_nat (panel_length X)) m); cbn;
    repeat split; lia.
Qed.

(** X12.  Fitting a seeded forest again on the same panel and labels, with
    the workers run in the same order, gives the same outcome and leaves the
    same object as the first call, whether that call returned or raised. *)
Theorem X12_seeded_refit_changes_nothing
    (global1 global2 : RandomState) (sched : schedule) (X : Panel)
    (y : list Z) (self : Forest) (seed : Z) :
  random_state self = RSInt seed →
  _fit global2 sched X y (_fit global1 sched X y self).2
    = _fit global1 sched X y self.
Proof.
  intros Hseed.
  destruct (prepared_prepared X y self) as (P1 & P2 & P3 & P4 & P5).
  pose proof (prepared_attributes X y self) as Hp. cbn zeta in Hp.
  destruct Hp as (B1 & R1 & N1 & J1 & _).
  rewrite (fit_unfold global1). cbn zeta.
  remember (prepared X y self) as p eqn:Hp.
  rewrite Hseed. rewrite N1 in *.
  destruct (check_random_state global1 (RSInt seed)) as [rng0 |] eqn:Hrng.
  - rewrite (check_random_state_seeded _ global2) in Hrng.
    destruct (sample_members _ _ _ _ _) as [[intervals rng] |] eqn:Hsam.
    + destruct (Parallel _ _ _) as [fitted |] eqn:Hpar; cbn [snd];
        rewrite fit_unfold; cbn zeta;
        rewrite prepared_fixed_point by (by cbn);
        cbn [n_estimators n_intervals min_interval series_length random_state
               n_jobs _estimator set_is_fitted set_estimators_ set_intervals_];
        rewrite R1, Hseed, Hrng, N1, J1, B1;
        rewrite Hsam, Hpar; by destruct p.
    + cbn [snd]. rewrite fit_unfold. cbn zeta.
      rewrite prepared_fixed_point by done.
      rewrite R1, Hseed, Hrng, N1. by rewrite Hsam.
  - rewrite (check_random_state_seeded _ global2) in Hrng.
    cbn [snd]. rewrite fit_unfold.
    replace (random_state (set_series_length (Z.of_nat (panel_length X)) self))
      with (RSInt seed) by (by destruct self).
    rewrite Hrng. by destruct self.
Qed.

(** X13.  What a call of [_fit] that returns, on a forest of at least one
    member, leaves behind.  The call has not clamped [min_interval]: it is
    the value the object held when the call started, and it is smaller than
    the series length that the call stored; and every interval that the call
    stored satisfies [0 <= start <= end <= series_length - 1] and
    [end - start >= min_interval].  This is a fact about the object as that
    call leaves it, not about every forest marked fitted: a later call of
    [_fit] that raises can change [series_length] and [min_interval] while
    the stored intervals stay. *)
Theorem X13_returning_fit_stores_valid_intervals
    (global : RandomState) (sched : schedule) (X : Panel) (y : list Z)
    (self self' : Forest) :
  1 ≤ n_estimators self →
  _fit global sched X y self = (Ok tt, self') →
  min_interval self' = min_interval self ∧
  min_interval self' < series_length self' ∧
  Forall (Forall (fun iv : Z * Z =>
                    0 ≤ iv.1 ≤ iv.2 ∧ iv.2 ≤ series_length self' - 1 ∧
                    min_interval self' ≤ iv.2 - iv.1))
         (intervals_ self').
Proof.
  intros Hn Hfit.
  apply fit_returns_inv in Hfit
    as (rng0 & ivs & rng & fitted & _ & Hsam & _ & ->).
  cbn zeta in Hsam.
  pose proof (prepared_attributes X y self) as Hp. cbn zeta in Hp.
  destruct Hp as (_ & _ & N1 & _ & _ & _ & _ & L1 & _ & _ & M1).
  destruct (prepared_sampler_arguments X y self) as (Hk & _ & _).
  cbn [min_interval series_length intervals_ set_is_fitted set_estimators_
         set_intervals_].
  assert (Hlt : min_interval (prepared X y self)
                < series_length (prepared X y self)).
  { destruct (Z.lt_ge_cases (min_interval (prepared X y self))
                (series_length (prepared X y self))) as [Hlt | Hge];
      [done |].
    rewrite sample_members_raises in Hsam; [done | lia | done | done]. }
  assert (Hsame : min_interval (prepared X y self) = min_interval self).
  { rewrite L1, M1 in Hlt. rewrite M1.
    destruct (Z.ltb_spec (Z.of_nat (panel_length X)) (min_interval self));
      [lia | done]. }
  split; [done |]. split; [done |].
  apply sample_members_inv in Hsam as [_ Hall].
  eapply Forall_impl; [exact Hall |]. intros ivs0 [_ Hivs].
  eapply Forall_impl; [exact Hivs |].
  intros iv (s & c & Hs & Hc & ->). cbn [fst snd].
  destruct (drawn_interval_in_range _ _ s c Hs Hc) as (H1 & H2 & H3 & _).
  lia.
Qed.

End FitExtras.

(** ** More on [temporal_curves_] *)

(** A loop whose body keeps an invariant and whose outcome is decided by its
    argument: the loop returns when every element lets the body return, and
    raises otherwise. *)
Lemma for_each_m_decided {S A} (I : S → Prop) (good : A → bool) (e0 : exn)
    (xs : list A) (body : A → method S unit) :
  (∀ x s, I s →
     I (body x s).2 ∧ (body x s).1 = if good x then Ok tt else Raise e0) →
  ∀ s, I s →
    I (for_each_m xs body s).2 ∧
    (for_each_m xs body s).1 = if forallb good xs then Ok tt else Raise e0.
Proof.
  intros Hbody. induction xs as [| x xs IH]; intros s Hs; [done |].
  cbn [for_each_m forallb]. unfold bind.
  destruct (Hbody x s Hs) as [HI Ho].
  destruct (body x s) as [r s1]. cbn [fst snd] in HI, Ho. subst r.
  destruct (good x); cbn [andb]; [by apply IH | done].
Qed.

Lemma bind_raising_raise {S A B} (e : exn) (k : A → method S B) (s : S) :
  bind (raising (Raise e)) k s = (Raise e, s).
Proof. reflexivity. Qed.

Lemma getitem_out_of_range {A} (a : list A) (i : nat) :
  (length a ≤ i)%nat → getitem a i = Raise IndexError.
Proof. intros Hi. unfold getitem. by rewrite lookup_ge_None_2. Qed.

(** [np.put]: all indices inside, or the first one outside raises. *)
Lemma np_put_decided (ind : list Z) : ∀ mask,
  let n := Z.of_nat (length mask) in
  (Forall (fun i => - n ≤ i < n) ind →
   ∃ mask', np_put mask ind = Ok mask' ∧ length mask' = length mask) ∧
  (Exists (fun i => ¬ (- n ≤ i < n)) ind →
   np_put mask ind = Raise IndexError).
Proof.
  unfold np_put.
  induction ind as [| i ind IH]; intros mask; cbn zeta.
  - split; [by exists mask |]. intros H. by apply Exists_nil in H.
  - cbn [for_each].
    destruct (Z.ltb_spec i (- Z.of_nat (length mask))) as [Hlo | Hlo];
      cbn [orb rbind].
    { split; [| done]. intros H. apply Forall_cons in H as [Hi _]. lia. }
    destruct (Z.leb_spec (Z.of_nat (length mask)) i) as [Hhi | Hhi];
      cbn [rbind].
    { split; [| done]. intros H. apply Forall_cons in H as [Hi _]. lia. }
    destruct (IH (<[Z.to_nat (if i <? 0
                              then i + Z.of_nat (length mask) else i)
                    := true]> mask)) as [Hin Hout].
    cbn zeta in Hin, Hout. rewrite length_insert in Hin, Hout.
    split.
    + intros H. apply Forall_cons in H as [_ H]. by apply Hin.
    + intros H. apply Exists_cons in H as [Hi | H]; [lia | by apply Hout].
Qed.

Lemma puttable_spec (l : nat) (iv : Z * Z) :
  if puttable l iv
  then Forall (fun i => - Z.of_nat l ≤ i < Z.of_nat l) (range2 iv.1 iv.2)
  else Exists (fun i => ¬ (- Z.of_nat l ≤ i < Z.of_nat l))
         (range2 iv.1 iv.2).
Proof.
  unfold puttable.
  destruct (Z.leb_spec iv.2 iv.1) as [Hempty | Hne]; cbn [orb].
  { apply Forall_forall. intros i Hi. apply range2_elem in Hi. lia. }
  destruct (Z.leb_spec (- Z.of_nat l) iv.1) as [Hlo | Hlo]; cbn [andb].
  - destruct (Z.leb_spec iv.2 (Z.of_nat l)) as [Hhi | Hhi].
    + apply Forall_forall. intros i Hi. apply range2_elem in Hi. lia.
    + apply Exists_exists. exists (iv.2 - 1).
      split; [apply range2_elem; lia | lia].
  - apply Exists_exists. exists iv.1.
    split; [apply range2_elem; lia | lia].
Qed.

Section CurveExtras.
Context {N : Numeric} {Lr : Learner N} {Rt : Runtime tree}.
Context {NL : NumericLaws N}.

Lemma shaped_with_curves (l : nat) a b c d (base : Forest) :
  series_length base = Z.of_nat l →
  length a = l → length b = l → length c = l → length d = l →
  shaped l (with_curves a b c d base).
Proof.
  intros Hl La Lb Lc Ld. split.
  - by rewrite with_curves_series_length.
  - exists a, b, c, d. by rewrite with_curves_curves.
Qed.

Lemma zip_add_where_length (curve : list num) (mask : list bool) v l :
  length curve = l → length mask = l →
  length (zip_with add curve (np_where mask v)) = l.
Proof.
  intros Hc Hm. unfold np_where. rewrite length_zip_with, length_fmap. lia.
Qed.

(** One iteration on a forest whose curves have the series length: the
    curves keep that length, and the iteration returns exactly when it runs
    through, and raises [IndexError] otherwise. *)
Lemma curve_step_decided (l : nat) estimator j iv (s : Forest) :
  shaped l s →
  shaped l (curve_step estimator j iv s).2 ∧
  (curve_step estimator j iv s).1
    = if step_runs l estimator (j, iv) then Ok tt else Raise IndexError.
Proof.
  intros (Hl & a & b & c & d & Hc & La & Lb & Lc & Ld).
  assert (Heq : s = with_curves a b c d s).
  { apply forest_eq; [by rewrite with_curves_config |].
    by rewrite with_curves_curves. }
  rewrite Heq. clear Heq Hc.
  unfold curve_step, step_runs. cbn [fst snd].
  rewrite bind_attr, with_curves_series_length, Hl, np_zeros_nat.
  rewrite bind_raising_ok.
  pose proof (puttable_spec l iv) as Hput.
  destruct (np_put_decided (range2 iv.1 iv.2) (replicate l false))
    as [Hin Hout].
  cbn zeta in Hin, Hout. rewrite length_replicate in Hin, Hout.
  destruct (puttable l iv); cbn [andb].
  2: { rewrite (Hout Hput), bind_raising_raise.
       split; [by apply shaped_with_curves | done]. }
  destruct (Hin Hput) as (mask & -> & Lm).
  rewrite bind_raising_ok.
  rewrite (bind_returns _ _ _ _ _ (iadd_wts _ _ _ _ _ _)).
  set (d' := zip_with add d (np_where mask one)).
  assert (Ld' : length d' = l) by by apply zip_add_where_length.
  destruct (Nat.ltb_spec (3 * j + 2) (length (feature_importances_ estimator)))
    as [Hlen | Hlen].
  - rewrite getitem_in_range by lia. rewrite bind_raising_ok.
    rewrite (bind_returns _ _ _ _ _ (iadd_mean _ _ _ _ _ _)).
    rewrite getitem_in_range by lia. rewrite bind_raising_ok.
    rewrite (bind_returns _ _ _ _ _ (iadd_stdev _ _ _ _ _ _)).
    rewrite getitem_in_range by lia. rewrite bind_raising_ok.
    rewrite iadd_slope.
    split; [| done].
    apply shaped_with_curves; try done; by apply zip_add_where_length.
  - destruct (decide (3 * j < length (feature_importances_ estimator))%nat)
      as [H0 | H0].
    2: { rewrite getitem_out_of_range by lia. rewrite bind_raising_raise.
         split; [by apply shaped_with_curves | done]. }
    rewrite getitem_in_range by lia. rewrite bind_raising_ok.
    rewrite (bind_returns _ _ _ _ _ (iadd_mean _ _ _ _ _ _)).
    destruct (decide (3 * j + 1 < length (feature_importances_ estimator))%nat)
      as [H1 | H1].
    2: { rewrite getitem_out_of_range by lia. rewrite bind_raising_raise.
         split; [| done].
         apply shaped_with_curves; try done;
           by apply zip_add_where_length. }
    rewrite getitem_in_range by lia. rewrite bind_raising_ok.
    rewrite (bind_returns _ _ _ _ _ (iadd_stdev _ _ _ _ _ _)).
    rewrite getitem_out_of_range by lia. rewrite bind_raising_raise.
    split; [| done].
    apply shaped_with_curves; try done; by apply zip_add_where_length.
Qed.

Lemma curves_loop_decided (l : nat) members (s : Forest) :
  shaped l s →
  shaped l (curves_loop members s).2 ∧
  (curves_loop members s).1
    = if forallb (member_runs l) members then Ok tt else Raise IndexError.
Proof.
  unfold curves_loop.
  apply (for_each_m_decided (shaped l) (member_runs l) IndexError).
  intros [estimator intervals] s0 Hs0. unfold member_runs. cbn [fst snd].
  apply (for_each_m_decided (shaped l) (step_runs l estimator) IndexError);
    [| done].
  intros [j iv] s1 Hs1. by apply curve_step_decided.
Qed.

(** X14.  Whatever the object holds, as long as its series length is not
    negative, a call of the curve computation leaves four curves of the
    series length, also when it raises half-way through the members. *)
Theorem X14_curves_keep_the_series_length (self : Forest) :
  0 ≤ series_length self →
  ∃ mean stdev slope wts,
    curves_of (temporal_curves_ self).2
      = (Some mean, Some stdev, Some slope, Some wts) ∧
    Z.of_nat (length mean) = series_length self ∧
    Z.of_nat (length stdev) = series_length self ∧
    Z.of_nat (length slope) = series_length self ∧
    Z.of_nat (length wts) = series_length self.
Proof.
  intros Hl. rewrite temporal_curves_unfold.
  destruct (Z.ltb_spec (series_length self) 0); [lia |]. cbn zeta.
  set (z := replicate (Z.to_nat (series_length self)) zero).
  destruct (curves_loop_decided (Z.to_nat (series_length self))
              (zip (estimators_ self) (intervals_ self))
              (with_curves z z z z self))
    as [(_ & a & b & c & d & Hc & La & Lb & Lc & Ld) _].
  { apply shaped_with_curves; try apply length_replicate. lia. }
  exists a, b, c, d. split; [done |]. lia.
Qed.

(** X15.  With a series length that is not negative, the curve computation
    raises nothing but [IndexError], and it returns exactly when every
    interval of every member has an index range that [np.put] accepts (empty,
    or inside [[-series_length, series_length)]) and every member's tree has
    the three importances of each of its intervals. *)
Theorem X15_temporal_curves_returns_or_raises_IndexError (self : Forest) :
  0 ≤ series_length self →
  (temporal_curves_ self).1
    = if forallb (member_runs (Z.to_nat (series_length self)))
           (zip (estimators_ self) (intervals_ self))
      then Ok tt else Raise IndexError.
Proof.
  intros Hl. rewrite temporal_curves_unfold.
  destruct (Z.ltb_spec (series_length self) 0); [lia |]. cbn zeta.
  set (z := replicate (Z.to_nat (series_length self)) zero).
  apply curves_loop_decided.
  apply shaped_with_curves; try apply length_replicate. lia.
Qed.

(** X17.  The curve computation changes nothing but the four curves,
    whether it returns or raises: the fitted parameters read after it are
    those read before it. *)
Theorem X17_temporal_curves_changes_only_the_curves (self : Forest) :
  let after := (temporal_curves_ self).2 in
  config_of after = config_of self ∧
  (_get_fitted_params after).1 = (_get_fitted_params self).1.
Proof.
  cbn zeta. pose proof (temporal_curves_keeps_config self) as Hcfg.
  split; [done |]. rewrite !get_fitted_params_returns. cbn [fst].
  apply config_members in Hcfg as (_ & -> & -> & -> & _). done.
Qed.

Lemma omap_all_None {A B} (f : A → option B) (l : list A) :
  Forall (fun x => f x = None) l → omap f l = [].
Proof. induction 1 as [| x l Hx _ IH]; [done |]. cbn. by rewrite Hx. Qed.

(** No score reaches a time index that no interval covers. *)
Lemma contributions_uncovered (score : tree → nat → num)
    (members : list (tree * list (Z * Z))) (t : nat) :
  Forall (fun member => Forall (fun iv => covers iv t = false) member.2)
    members →
  contributions score members t = [].
Proof.
  unfold contributions.
  induction 1 as [| [estimator intervals] members Hm _ IH]; [done |].
  cbn [flat_map]. rewrite IH, app_nil_r. cbn [snd] in Hm.
  apply omap_all_None, Forall_forall. intros [j iv] Hin.
  apply elem_of_lookup_imap_1 in Hin as (j' & iv' & [= -> ->] & Hj).
  eapply Forall_lookup_1 in Hm; [| exact Hj]. by rewrite Hm.
Qed.

(** X16.  The last time index is never covered: after a call of [_fit] that
    has returned, the curve computation leaves [0] at position
    [series_length - 1] of the coverage curve and of the three importance
    curves, whatever the seed and the trees. *)
Theorem X16_last_time_index_is_never_covered
    (global : RandomState) (sched : schedule) (X : Panel) (y : list Z)
    (self0 self : Forest) :
  _fit global sched X y self0 = (Ok tt, self) →
  Forall2 (fun estimator (intervals : list (Z * Z)) =>
             (3 * length intervals
              ≤ length (feature_importances_ estimator))%nat)
          (estimators_ self) (intervals_ self) →
  (0 < panel_length X)%nat →
  let last := (panel_length X - 1)%nat in
  ∃ mean stdev slope wts,
    temporal_curves_ self = (Ok tt, with_curves mean stdev slope wts self) ∧
    wts !! last = Some zero ∧ mean !! last = Some zero ∧
    stdev !! last = Some zero ∧ slope !! last = Some zero.
Proof.
  intros Hfit Himp Hpos. cbn zeta.
  pose proof Hfit as Hinv.
  apply fit_returns_inv in Hinv
    as (rng0 & ivs & rng & fitted & _ & Hsam & _ & Hself).
  cbn zeta in Hsam.
  pose proof (prepared_attributes X y self0) as Hp. cbn zeta in Hp.
  destruct Hp as (_ & _ & _ & _ & _ & _ & _ & L1 & _ & _ & _).
  apply sample_members_inv in Hsam as (_ & Hall).
  assert (Hl : series_length self = Z.of_nat (panel_length X))
    by (subst self; exact L1).
  assert (Hivs : intervals_ self = ivs) by by subst self.
  rewrite Hivs in *. rewrite L1 in Hall. clear Hself.
  pose proof (Forall_zip_Forall2 _ _ _ _ Himp Hall) as Hzip.
  assert (Hok : Forall
    (fun member => Forall (step_ok (panel_length X) member.1)
                     (enumerate member.2))
    (zip (estimators_ self) ivs)).
  { eapply Forall_impl; [exact Hzip |].
    intros [estimator intervals]. cbn. intros (Hlen & _ & Hsampled).
    apply Forall_forall. intros [j iv] Hin.
    apply elem_of_lookup_imap_1 in Hin as (j' & iv' & [= -> ->] & Hj).
    eapply Forall_lookup_1 in Hsampled; [| exact Hj].
    apply sampled_in_range in Hsampled.
    apply lookup_lt_Some in Hj.
    unfold step_ok. cbn. repeat split; lia. }
  assert (Hunc : Forall
    (fun member : tree * list (Z * Z) =>
       Forall (fun iv => covers iv (panel_length X - 1) = false) member.2)
    (zip (estimators_ self) ivs)).
  { eapply Forall_impl; [exact Hzip |].
    intros [estimator intervals]. cbn. intros (_ & _ & Hsampled).
    eapply Forall_impl; [exact Hsampled |]. intros iv Hiv.
    apply sampled_in_range in Hiv. unfold covers.
    apply bool_decide_eq_false_2. lia. }
  rewrite (temporal_curves_returns (panel_length X)) by by rewrite ?Hivs.
  rewrite Hivs. do 4 eexists. split; [done |].
  assert (Hz : replicate (panel_length X) zero !! (panel_length X - 1)%nat
               = Some zero) by (apply lookup_replicate_2; lia).
  repeat split;
    rewrite (curve_after_lookup _ _ _ _ _ Hz);
    by rewrite contributions_uncovered.
Qed.

End CurveExtras.

(** ** The statements on the small instance *)

Lemma demo_numeric_laws : NumericLaws demo_numeric.
Proof. split. intros x. apply Z.add_0_r. Qed.

Lemma first_raise_none {T} (tasks : list (result T)) (order : list nat) :
  first_raise tasks order = None →
  ∀ i e, i ∈ order → tasks !! i ≠ Some (Raise e).
Proof.
  induction order as [| i0 order IH]; intros Hnone i e Hi.
  - by apply elem_of_nil in Hi.
  - cbn [first_raise] in Hnone.
    apply elem_of_cons in Hi as [-> | Hi].
    + intros Heq. by rewrite Heq in Hnone.
    + apply IH; [| done].
      destruct (tasks !! i0) as [[t | e0] |]; done.
Qed.

Lemma collect_all_returned {T} (tasks : list (result T)) :
  (∀ i e, tasks !! i ≠ Some (Raise e)) → tasks = Ok <$> collect tasks.
Proof.
  unfold collect. induction tasks as [| r tasks IH]; intros Hok; [done |].
  destruct r as [t | e].
  - cbn. f_equal. apply IH. intros i e. apply (Hok (S i) e).
  - by destruct (Hok 0%nat e).
Qed.

Lemma demo_runtime_laws (T : Type) : RuntimeLaws (demo_runtime T).
Proof.
  split. intros n s tasks rs. cbn.
  destruct (n =? 0); [done |].
  destruct (first_raise tasks (s ++ seq 0 (length tasks))) eqn:Hfirst;
    [done |].
  intros [= <-]. apply collect_all_returned. intros i e Hi.
  eapply (first_raise_none _ _ Hfirst i e); [| done].
  apply elem_of_app. right. apply elem_of_seq.
  apply lookup_lt_Some in Hi. lia.
Qed.

Lemma outcome_and_state {S A} (p : result A * S) (r : result A) :
  p.1 = r → p = (r, p.2).
Proof. destruct p as [r0 s]. cbn. by intros ->. Qed.

(** The example of the end-to-end test: [_fit] returns. *)
Lemma demo_fit_returns : demo_fit = (Ok tt, demo_fit.2).
Proof. apply outcome_and_state. vm_compute. reflexivity. Qed.

Lemma C3_fit_deterministic_for_a_seed_witness :
  intervals_
    (@_fit demo_numeric demo_learner (demo_runtime _) (replay [7; 7])
       [2; 1; 0]%nat demo_panel demo_labels (demo_forest 4)).2
    = intervals_ demo_fit.2 ∧
  classes_
    (@_fit demo_numeric demo_learner (demo_runtime _) (replay [7; 7])
       [2; 1; 0]%nat demo_panel demo_labels (demo_forest 4)).2
    = classes_ demo_fit.2.
Proof.
  apply (@C3_fit_deterministic_for_a_seed demo_numeric demo_learner
           (demo_runtime _) (replay []) (replay [7; 7]) [] [2; 1; 0]%nat
           demo_panel demo_labels (demo_forest 1) (demo_forest 4)
           demo_fit.2 42);
    [reflexivity | reflexivity | reflexivity | reflexivity |].
  apply outcome_and_state. vm_compute. reflexivity.
Defined.

Lemma C5_sampling_raises_when_minimum_does_not_fit_witness :
  1 ≤ 2 ∧
  _get_intervals 2 3 3 (replay [5; 6]) = Raise ValueError ∧
  (∃ intervals g',
     _get_intervals 2 3 8 (replay [5; 6]) = Ok (intervals, g') ∧
     Z.of_nat (length intervals) = 2) ∧
  (∃ self',
     short_fit = (Raise ValueError, self') ∧
     _is_fitted self' = _is_fitted (demo_forest 1) ∧
     intervals_ self' = intervals_ (demo_forest 1) ∧
     estimators_ self' = estimators_ (demo_forest 1)).
Proof.
  split; [lia |].
  destruct (@C5_sampling_raises_when_minimum_does_not_fit demo_numeric
              demo_learner (demo_runtime _) (replay []) [] short_panel
              demo_labels (demo_forest 1) 2 3 3 (replay [5; 6]))
    as (Hraise & _ & Hfit); [lia |].
  destruct (@C5_sampling_raises_when_minimum_does_not_fit demo_numeric
              demo_learner (demo_runtime _) (replay []) [] short_panel
              demo_labels (demo_forest 1) 2 3 8 (replay [5; 6]))
    as (_ & Hreturn & _); [lia |].
  split; [apply Hraise; lia |]. split; [apply Hreturn; lia |].
  apply Hfit; cbn; lia.
Defined.

Lemma C6_transform_shape_and_layout_witness :
  ∃ Xt,
    _transform demo_panel [(0, 3); (2, 7)] = Ok Xt ∧
    length Xt = length (panel_rows demo_panel) ∧
    Forall (fun row => length row = (3 * length [(0, 3); (2, 7)])%nat) Xt ∧
    ∀ i j series iv,
      panel_rows demo_panel !! i = Some series →
      [(0, 3); (2, 7)] !! j = Some iv →
      ∃ row,
        Xt !! i = Some row ∧
        row !! (3 * j)%nat
          = Some (float32 (np_mean (sub_range iv.1 iv.2 series))) ∧
        row !! (3 * j + 1)%nat
          = Some (float32 (np_std (sub_range iv.1 iv.2 series))) ∧
        row !! (3 * j + 2)%nat
          = Some (float32 (_slope (sub_range iv.1 iv.2 series))).
Proof.
  apply (@C6_transform_shape_and_layout demo_numeric demo_panel
           [(0, 3); (2, 7)]).
  repeat constructor; cbn; lia.
Defined.

Lemma C7_curves_are_raw_sums_witness :
  ∃ mean stdev slope wts,
    temporal_curves_ demo_fit.2
      = (Ok tt, with_curves mean stdev slope wts demo_fit.2) ∧
    length mean = 8%nat ∧ length stdev = 8%nat ∧ length slope = 8%nat ∧
    length wts = 8%nat ∧
    ∀ t, (t < 8)%nat →
      let members := zip (estimators_ demo_fit.2) (intervals_ demo_fit.2) in
      wts !! t = Some (raw_sum (contributions (fun _ _ => one) members t)) ∧
      mean !! t = Some (raw_sum (contributions (importance 0) members t)) ∧
      stdev !! t = Some (raw_sum (contributions (importance 1) members t)) ∧
      slope !! t = Some (raw_sum (contributions (importance 2) members t)).
Proof.
  apply (@C7_curves_are_raw_sums demo_numeric demo_learner (demo_runtime _)
           demo_numeric_laws (replay []) [] demo_panel demo_labels
           (demo_forest 1) demo_fit.2).
  - apply outcome_and_state. vm_compute. reflexivity.
  - assert (He : estimators_ demo_fit.2
                 = [[1; 2; 3; 4; 5; 6]; [1; 2; 3; 4; 5; 6];
                    [1; 2; 3; 4; 5; 6]])
      by (vm_compute; reflexivity).
    assert (Hi : intervals_ demo_fit.2
                 = [[(2, 5); (2, 5)]; [(3, 6); (4, 7)]; [(0, 5); (0, 4)]])
      by (vm_compute; reflexivity).
    rewrite He, Hi. repeat constructor.
Defined.

Lemma C9_fit_stores_members_witness :
  demo_fit.1 = Ok tt ∧
  Z.of_nat (length (estimators_ demo_fit.2)) = 3 ∧
  Z.of_nat (length (intervals_ demo_fit.2)) = 3 ∧
  Forall (fun ivs : list (Z * Z) => Z.of_nat (length ivs) = 2)
         (intervals_ demo_fit.2) ∧
  NoDup (classes_ demo_fit.2) ∧
  StronglySorted Z.lt (classes_ demo_fit.2) ∧
  (∀ c, c ∈ classes_ demo_fit.2 ↔ c ∈ [0; 1; 0; 1]) ∧
  _is_fitted demo_fit.2 = true.
Proof.
  split; [vm_compute; reflexivity |].
  apply (@C9_fit_stores_members demo_numeric demo_learner (demo_runtime _)
           (demo_runtime_laws _) (replay []) [] demo_panel demo_labels
           (demo_forest 1) demo_fit.2 3);
    [reflexivity | lia |].
  apply outcome_and_state. vm_compute. reflexivity.
Defined.

(** C10, as the specification states it, fails: with an integer seed that
    [np.random.RandomState] refuses, [_fit] raises at the seed check, before
    it compares the series length with [min_interval]; on a panel of series
    of length [2] the configured value [3] is still there after the call. *)
Lemma C10_refused_seed_keeps_min_interval :
  Z.of_nat (panel_length short_panel) < min_interval refused_forest ∧
  refused_fit.1 = Raise ValueError ∧
  min_interval refused_fit.2 = 3 ∧
  min_interval refused_fit.2 ≠ Z.of_nat (panel_length short_panel).
Proof.
  split; [cbn; lia |]. split; [vm_compute; reflexivity |].
  assert (H : min_interval refused_fit.2 = 3) by (vm_compute; reflexivity).
  split; [exact H |]. rewrite H. cbn. lia.
Qed.

Lemma C10_fit_overwrites_min_interval_witness :
  min_interval (demo_forest 1) = 3 ∧
  min_interval short_fit.2 = 2 ∧
  min_interval
    (@_fit demo_numeric demo_learner (demo_runtime _) (replay []) []
       demo_panel demo_labels short_fit.2).2 ≤ 2 ∧
  n_estimators short_fit.2 = n_estimators (demo_forest 1) ∧
  n_jobs short_fit.2 = n_jobs (demo_forest 1) ∧
  random_state short_fit.2 = random_state (demo_forest 1).
Proof.
  split; [reflexivity |].
  destruct (@C10_fit_overwrites_min_interval demo_numeric demo_learner
              (demo_runtime _) (replay []) [] short_panel demo_labels
              (demo_forest 1))
    as (Haccepted & _ & Hn & Hj & Hrs).
  edestruct Haccepted as [Hover _]; [reflexivity |].
  destruct Hover as [Hmin Hlater]; [cbn; lia |].
  split; [exact Hmin |]. split; [apply Hlater |]. by repeat split.
Defined.

(** C4, as the specification states it, fails: on a freshly constructed
    forest neither call raises [NotFittedError], and the curve computation
    changes the object. *)
Lemma C4_unfitted_calls_do_not_raise :
  let self := @__init__ demo_numeric demo_learner 0 3 200 1 RSNone in
  _is_fitted self = false ∧
  (_get_fitted_params self).1 ≠ Raise NotFittedError ∧
  (temporal_curves_ self).1 ≠ Raise NotFittedError ∧
  (temporal_curves_ self).2 ≠ self.
Proof. cbn. repeat split; discriminate. Qed.

Lemma C4_unfitted_calls_return_witness :
  @unfitted demo_numeric demo_learner (demo_runtime _) short_fit.2 ∧
  _get_fitted_params short_fit.2 =
    (Ok (mkFittedParams (classes_ short_fit.2) (intervals_ short_fit.2) []),
     short_fit.2) ∧
  (let z := replicate (Z.to_nat (series_length short_fit.2)) zero in
   temporal_curves_ short_fit.2 = (Ok tt, with_curves z z z z short_fit.2)) ∧
  config_of (temporal_curves_ short_fit.2).2 = config_of short_fit.2.
Proof.
  assert (Hu : @unfitted demo_numeric demo_learner (demo_runtime _)
                 short_fit.2).
  { apply (@unfitted_fit_raised demo_numeric demo_learner (demo_runtime _)
             (replay []) [] short_panel demo_labels (demo_forest 1)
             ValueError);
      [apply unfitted_init |].
    apply outcome_and_state. vm_compute. reflexivity. }
  split; [exact Hu |].
  exact (@C4_unfitted_calls_return demo_numeric demo_learner (demo_runtime _)
           short_fit.2 Hu).
Defined.

Lemma C8_temporal_curves_idempotent_witness :
  temporal_curves_ (temporal_curves_ demo_fit.2).2
    = temporal_curves_ demo_fit.2 ∧
  (temporal_curves_ (set_n_classes 7 demo_fit.2)).1
    = (temporal_curves_ demo_fit.2).1 ∧
  curves_of (temporal_curves_ (set_n_classes 7 demo_fit.2)).2
    = curves_of (temporal_curves_ demo_fit.2).2.
Proof.
  destruct (@C8_temporal_curves_idempotent demo_numeric demo_learner
              demo_fit.2) as [Hagain Hother].
  split; [exact Hagain |].
  destruct (Hother (set_n_classes 7 demo_fit.2)) as [Ho Hc];
    [reflexivity | reflexivity | reflexivity |].
  split; [exact Ho |]. apply Hc. vm_compute. discriminate.
Defined.

(** Without a seed the intervals follow numpy's global generator: two runs
    that find it in different states draw different intervals. *)
Example unseeded_fit_follows_global_generator :
  let unseeded := @__init__ demo_numeric demo_learner 0 3 1 1 RSNone in
  intervals_
    (@_fit demo_numeric demo_learner (demo_runtime _) (replay [0; 0; 0; 0])
       [] demo_panel demo_labels unseeded).2
  ≠ intervals_
      (@_fit demo_numeric demo_learner (demo_runtime _) (replay [1; 1; 1; 1])
         [] demo_panel demo_labels unseeded).2.
Proof. vm_compute. discriminate. Qed.

(** The same with a generator object as [random_state]: the intervals follow
    the state in which the call finds the object. *)
Example fit_draws_from_the_generator_object :
  let forest := @__init__ demo_numeric demo_learner 0 3 1 1 RSGen in
  intervals_
    (@_fit demo_numeric demo_learner (demo_runtime _) (replay [0; 0; 0; 0])
       [] demo_panel demo_labels forest).2
  ≠ intervals_
      (@_fit demo_numeric demo_learner (demo_runtime _) (replay [1; 1; 1; 1])
         [] demo_panel demo_labels forest).2.
Proof. vm_compute. discriminate. Qed.

(** ** The further statements on the small instance *)

Lemma X5_sampled_windows_hold_end_minus_start_points_witness :
  Forall (fun iv : Z * Z =>
            Z.of_nat (length (py_slice iv.1 iv.2 [1; 2; 3; 4; 5; 6; 7; 8]))
              = iv.2 - iv.1 ∧
            3 ≤ iv.2 - iv.1)
         [(3, 6); (4, 7)].
Proof.
  eapply (@X5_sampled_windows_hold_end_minus_start_points demo_numeric
            2 3 8 (replay [3; 1; 4; 1]) _ [(3, 6); (4, 7)]
            [1; 2; 3; 4; 5; 6; 7; 8]);
    reflexivity.
Defined.

Lemma X7_transform_never_reads_the_last_time_point_witness :
  _transform demo_panel [(3, 6); (4, 7)]
    = _transform demo_panel_other_end [(3, 6); (4, 7)].
Proof.
  eapply (@X7_transform_never_reads_the_last_time_point demo_numeric
            2 3 8 (replay [3; 1; 4; 1]) _ [(3, 6); (4, 7)]
            demo_panel demo_panel_other_end);
    reflexivity.
Defined.

Lemma X9_smaller_forest_draws_a_prefix_witness :
  intervals_
    (@_fit demo_numeric demo_learner (demo_runtime _) (replay [5]) [1; 0]%nat
       demo_panel demo_labels (sized_forest 2)).2
    = take (Z.to_nat 2) (intervals_ demo_fit.2).
Proof.
  apply (@X9_smaller_forest_draws_a_prefix demo_numeric demo_learner
           (demo_runtime _) (replay []) (replay [5]) [] [1; 0]%nat
           demo_panel demo_labels (demo_forest 1) (sized_forest 2)
           demo_fit.2 42);
    [reflexivity | reflexivity | reflexivity | cbn; lia |].
  apply outcome_and_state. vm_compute. reflexivity.
Defined.

Lemma X10_failed_fit_leaves_a_mixed_object_witness :
  stale_fit.1 = Raise ValueError ∧
  (_is_fitted stale_fit.2 = _is_fitted demo_fit.2 ∧
   estimators_ stale_fit.2 = estimators_ demo_fit.2 ∧
   curves_of stale_fit.2 = curves_of demo_fit.2 ∧
   series_length stale_fit.2 = Z.of_nat (panel_length short_panel)) ∧
  classes_ stale_fit.2 = np_unique demo_labels ∧
  min_interval stale_fit.2 = 2 ∧
  intervals_ stale_fit.2 = intervals_ demo_fit.2.
Proof.
  split; [vm_compute; reflexivity |].
  destruct (@X10_failed_fit_leaves_a_mixed_object demo_numeric demo_learner
              (demo_runtime _) (replay []) [] short_panel demo_labels
              demo_fit.2 stale_fit.2 ValueError)
    as [Hkept Hstopped];
    [apply outcome_and_state; vm_compute; reflexivity |].
  split; [exact Hkept |].
  assert (Hseed : random_state demo_fit.2 = RSInt 42)
    by (vm_compute; reflexivity).
  assert (Hm : min_interval demo_fit.2 = 3) by (vm_compute; reflexivity).
  assert (Hn : n_estimators demo_fit.2 = 3) by (vm_compute; reflexivity).
  rewrite Hseed, Hm, Hn in Hstopped.
  destruct Hstopped
    as [[Hrefused _]
       | (rng & _ & (_ & Hc & _ & Hmin) &
          [(_ & _ & Hivs) | (ivs & rng' & Hsam & _)])].
  - discriminate Hrefused.
  - by repeat split.
  - rewrite sample_members_raises in Hsam; [done | lia | done | done].
Defined.

Lemma X11_empty_ensemble_is_accepted_witness :
  n_estimators (sized_forest 0) ≤ 0 ∧
  intervals_
    (@_fit demo_numeric demo_learner (demo_runtime _) (replay []) []
       short_panel demo_labels (sized_forest 0)).2 = [] ∧
  estimators_
    (@_fit demo_numeric demo_learner (demo_runtime _) (replay []) []
       short_panel demo_labels (sized_forest 0)).2 = [] ∧
  _is_fitted
    (@_fit demo_numeric demo_learner (demo_runtime _) (replay []) []
       short_panel demo_labels (sized_forest 0)).2 = true.
Proof.
  split; [cbn; lia |].
  destruct (@X11_empty_ensemble_is_accepted demo_numeric demo_learner
              (demo_runtime _) (demo_runtime_laws _) (replay []) []
              short_panel demo_labels (sized_forest 0))
    as [Haccepted _]; [cbn; lia |].
  edestruct Haccepted as (Hivs & Hret & _); [reflexivity |].
  split; [exact Hivs |]. apply Hret. vm_compute. reflexivity.
Defined.

Lemma X12_seeded_refit_changes_nothing_witness :
  random_state (demo_forest 1) = RSInt 42 ∧
  @_fit demo_numeric demo_learner (demo_runtime _) (replay [4; 4]) []
    demo_panel demo_labels demo_fit.2
  = demo_fit.
Proof.
  split; [reflexivity |].
  apply (@X12_seeded_refit_changes_nothing demo_numeric demo_learner
           (demo_runtime _) (replay []) (replay [4; 4]) [] demo_panel
           demo_labels (demo_forest 1) 42).
  reflexivity.
Defined.

Lemma X13_returning_fit_stores_valid_intervals_witness :
  1 ≤ n_estimators (demo_forest 1) ∧
  min_interval demo_fit.2 = min_interval (demo_forest 1) ∧
  min_interval demo_fit.2 < series_length demo_fit.2 ∧
  Forall (Forall (fun iv : Z * Z =>
                    0 ≤ iv.1 ≤ iv.2 ∧ iv.2 ≤ series_length demo_fit.2 - 1 ∧
                    min_interval demo_fit.2 ≤ iv.2 - iv.1))
         (intervals_ demo_fit.2).
Proof.
  split; [cbn; lia |].
  apply (@X13_returning_fit_stores_valid_intervals demo_numeric demo_learner
           (demo_runtime _) (replay []) [] demo_panel demo_labels
           (demo_forest 1) demo_fit.2);
    [cbn; lia |].
  apply outcome_and_state. vm_compute. reflexivity.
Defined.

(** The fitted forest after a call of [_fit] that raised on the short panel:
    still marked fitted, with a minimum interval length equal to the series
    length and the intervals drawn for the longer series. *)
Example failed_refit_keeps_the_old_intervals :
  stale_fit.1 = Raise ValueError ∧
  _is_fitted stale_fit.2 = true ∧
  min_interval stale_fit.2 = 2 ∧
  series_length stale_fit.2 = 2 ∧
  intervals_ stale_fit.2
    = [[(2, 5); (2, 5)]; [(3, 6); (4, 7)]; [(0, 5); (0, 4)]].
Proof. repeat split; vm_compute; reflexivity. Qed.

Lemma stale_series_length : series_length stale_fit.2 = 2.
Proof. vm_compute. reflexivity. Qed.

Lemma X14_curves_keep_the_series_length_witness :
  0 ≤ series_length stale_fit.2 ∧
  ∃ mean stdev slope wts,
    curves_of (temporal_curves_ stale_fit.2).2
      = (Some mean, Some stdev, Some slope, Some wts) ∧
    Z.of_nat (length mean) = series_length stale_fit.2 ∧
    Z.of_nat (length stdev) = series_length stale_fit.2 ∧
    Z.of_nat (length slope) = series_length stale_fit.2 ∧
    Z.of_nat (length wts) = series_length stale_fit.2.
Proof.
  assert (H : 0 ≤ series_length stale_fit.2)
    by (rewrite stale_series_length; lia).
  split; [exact H |].
  exact (@X14_curves_keep_the_series_length demo_numeric demo_learner
           stale_fit.2 H).
Defined.

Lemma X15_temporal_curves_returns_or_raises_IndexError_witness :
  0 ≤ series_length stale_fit.2 ∧
  (temporal_curves_ stale_fit.2).1 = Raise IndexError ∧
  (temporal_curves_ demo_fit.2).1 = Ok tt.
Proof.
  assert (H : 0 ≤ series_length stale_fit.2)
    by (rewrite stale_series_length; lia).
  split; [exact H |]. split.
  - rewrite (@X15_temporal_curves_returns_or_raises_IndexError demo_numeric
               demo_learner stale_fit.2 H).
    vm_compute. reflexivity.
  - rewrite (@X15_temporal_curves_returns_or_raises_IndexError demo_numeric
               demo_learner demo_fit.2);
      [vm_compute; reflexivity |].
    replace (series_length demo_fit.2) with 8 by (vm_compute; reflexivity).
    lia.
Defined.

Lemma X16_last_time_index_is_never_covered_witness :
  ∃ mean stdev slope wts,
    temporal_curves_ demo_fit.2
      = (Ok tt, with_curves mean stdev slope wts demo_fit.2) ∧
    wts !! (panel_length demo_panel - 1)%nat = Some zero ∧
    mean !! (panel_length demo_panel - 1)%nat = Some zero ∧
    stdev !! (panel_length demo_panel - 1)%nat = Some zero ∧
    slope !! (panel_length demo_panel - 1)%nat = Some zero.
Proof.
  apply (@X16_last_time_index_is_never_covered demo_numeric demo_learner
           (demo_runtime _) demo_numeric_laws (replay []) [] demo_panel
           demo_labels (demo_forest 1) demo_fit.2).
  - apply outcome_and_state. vm_compute. reflexivity.
  - assert (He : estimators_ demo_fit.2
                 = [[1; 2; 3; 4; 5; 6]; [1; 2; 3; 4; 5; 6];
                    [1; 2; 3; 4; 5; 6]])
      by (vm_compute; reflexivity).
    assert (Hi : intervals_ demo_fit.2
                 = [[(2, 5); (2, 5)]; [(3, 6); (4, 7)]; [(0, 5); (0, 4)]])
      by (vm_compute; reflexivity).
    rewrite He, Hi. repeat constructor.
  - cbn. lia.
Defined.
